(** * The Outscale docker-machine driver: provisioning and teardown

    A shallow embedding of [driver/outscale/amazonec2.go].  The driver is a
    Go struct mutated by its methods, and every method talks to the compute
    API through the [Ec2Client] interface.  Here the struct is a record, the
    interface is a record of handlers over an abstract remote world, and a
    method is a function in a state monad that threads the driver, the world
    and the log of requests sent to the client.  A Go run-time panic (index
    out of range, slice bounds out of range) is an outcome of its own, not
    an [error] value. *)

From Stdlib Require Import ZArith Lia Ascii String List Bool DecimalString.
From stdpp Require Import base option list gmap strings fin_maps.
Import ListNotations.

Open Scope string_scope.
Open Scope list_scope.
Open Scope Z_scope.

(** ** Go library functions on strings

    A Go string is a sequence of bytes, as [string] is here. *)

Module strings.

(** [strings.IndexByte]: the index of the first [c] in [s], or -1. *)
Fixpoint IndexByte (s : string) (c : ascii) : Z :=
  match s with
  | EmptyString => -1
  | String a s' =>
      if Ascii.eqb a c then 0
      else let i := IndexByte s' c in
           if i <? 0 then -1 else i + 1
  end.

(** [strings.HasPrefix]. *)
Definition HasPrefix (s pre : string) : bool := String.prefix pre s.

(** [strings.Contains]. *)
Fixpoint Contains (s substr : string) : bool :=
  String.prefix substr s ||
  match s with
  | EmptyString => false
  | String _ s' => Contains s' substr
  end.

(** [strings.Split] with a one-byte separator. *)
Fixpoint Split (s : string) (sep : ascii) : list string :=
  match s with
  | EmptyString => [EmptyString]
  | String a s' =>
      if Ascii.eqb a sep then EmptyString :: Split s' sep
      else match Split s' sep with
           | h :: t => String a h :: t
           | [] => [String a EmptyString]
           end
  end.

(** [strings.SplitN(s, sep, 2)] with a one-byte separator: cut at the
    first separator, if there is one. *)
Fixpoint SplitN2 (s : string) (sep : ascii) : list string :=
  match s with
  | EmptyString => [EmptyString]
  | String a s' =>
      if Ascii.eqb a sep then [EmptyString; s']
      else match SplitN2 s' sep with
           | h :: t => String a h :: t
           | [] => [String a EmptyString]
           end
  end.

End strings.

(** The slice expression [s[:hi]].  Go panics unless [0 <= hi <= len(s)]. *)
Definition slice_to (s : string) (hi : Z) : option string :=
  if (0 <=? hi) && (hi <=? Z.of_nat (String.length s))
  then Some (String.substring 0 (Z.to_nat hi) s)
  else None.

(** The index expression [s[i]] on a string. *)
Definition byte_at (s : string) (i : Z) : option ascii :=
  if 0 <=? i then String.get (Z.to_nat i) s else None.

(** The verb [%d] of [fmt.Sprintf] on an integer. *)
Definition FormatInt (n : Z) : string := NilZero.string_of_int (Z.to_int n).

Module strconv.

Inductive NumError := ErrSyntax | ErrRange.

Definition digit (a : ascii) : option Z :=
  let n := Z.of_nat (nat_of_ascii a) in
  if (48 <=? n) && (n <=? 57) then Some (n - 48) else None.

(** The digit loop of [strconv.ParseUint(s, 10, 64)]: [None] on a byte
    that is not a decimal digit. *)
Fixpoint digits (s : string) (acc : Z) : option Z :=
  match s with
  | EmptyString => Some acc
  | String a s' =>
      match digit a with
      | Some d => digits s' (acc * 10 + d)
      | None => None
      end
  end.

(** [strconv.ParseInt(s, 10, 0)] where [int] has 64 bits: an optional
    sign, then one or more decimal digits, within the range of int64. *)
Definition ParseInt (s : string) : Z + NumError :=
  match s with
  | EmptyString => inr ErrSyntax
  | String a s' =>
      let neg := Ascii.eqb a "-" in
      let body := if Ascii.eqb a "+" || neg then s' else s in
      match body with
      | EmptyString => inr ErrSyntax
      | _ =>
          match digits body 0 with
          | None => inr ErrSyntax
          | Some un =>
              if negb neg && (2 ^ 63 <=? un) then inr ErrRange
              else if neg && (2 ^ 63 <? un) then inr ErrRange
              else inl (if neg then - un else un)
          end
      end
  end.

End strconv.

Module driverutil.

(** [driverutil.SplitPortProto]: "port[/proto]", the protocol defaulting
    to tcp. *)
Definition SplitPortProto (raw : string) : string * string :=
  match strings.SplitN2 raw "/" with
  | [port] => (port, "tcp")
  | port :: proto :: _ => (port, proto)
  | [] => (raw, "tcp")
  end.

End driverutil.

(** ** Errors

    A Go [error] is either a plain error carrying its text ([errors.New],
    [fmt.Errorf], and the errors of the client and of the file system,
    which the driver only ever inspects through [Error()]), or the
    aggregate [mcnutils.MultiError]. *)

#[local] Unset Elimination Schemes.
Inductive error : Type :=
| errorString (s : string)
| MultiError (Errs : list error).
#[local] Set Elimination Schemes.

Definition errorNoPrivateSSHKey : error :=
  errorString "using --outscale-keypair-name also requires --outscale-ssh-keypath".
Definition errorReadingUserData : error :=
  errorString "unable to read --outscale-userdata file".

(** A Go result [(T, error)]. *)
Definition result (T : Type) : Type := (T + error)%type.


(** ** The data of the compute API (package [ec2])

    The SDK's structs hold pointers.  A field the driver tests against
    [nil] is an [option]; a field the driver dereferences without a test
    ([*inst.InstanceId], [*group.GroupId], [*bdm.DeviceName], ...) is
    modelled as present, which is what a decoded response guarantees. *)

Module ec2.

Record Tag := { Key : string; Value : string }.

Record EbsBlockDevice := {
  SnapshotId : option string;
  VolumeSize : option Z;
  VolumeType : option string;
  DeleteOnTermination : option bool
}.

Record BlockDeviceMapping := {
  DeviceName : string;
  VirtualName : option string;
  Ebs : option EbsBlockDevice
}.

Record IpPermission := {
  IpProtocol : string;
  FromPort : option Z;
  ToPort : option Z;
  IpRanges : list string;          (* the CidrIp of each range *)
  UserIdGroupPairs : list string   (* the GroupId of each pair *)
}.

Record SecurityGroup := {
  GroupId : string;
  GroupName : string;
  VpcId : string;
  IpPermissions : list IpPermission;
  Tags : list Tag
}.

Record Instance := {
  InstanceId : string;
  StateName : string;              (* State.Name *)
  KeyName : option string;
  PrivateIpAddress : option string;
  PublicIpAddress : option string
}.

Record Reservation := { Instances : list Instance }.

Record Filter := { Name : string; Values : list string }.

Record InstanceNetworkInterfaceSpecification := {
  DeviceIndex : Z;
  Groups : list string;
  SubnetId : string;
  AssociatePublicIpAddress : bool
}.

Record RunInstancesInput := {
  run_ImageId : string;
  run_MinCount : Z;
  run_MaxCount : Z;
  run_AvailabilityZone : string;   (* Placement.AvailabilityZone *)
  run_KeyName : string;
  run_InstanceType : string;
  run_NetworkInterfaces : list InstanceNetworkInterfaceSpecification;
  run_IamInstanceProfile : string; (* IamInstanceProfile.Name *)
  run_EbsOptimized : bool;
  run_BlockDeviceMappings : list BlockDeviceMapping;
  run_UserData : string
}.

Record Address := { AllocationId : string; PublicIp : string }.

Definition InstanceStateNamePending := "pending".
Definition InstanceStateNameRunning := "running".
Definition InstanceStateNameShuttingDown := "shutting-down".
Definition InstanceStateNameTerminated := "terminated".
Definition InstanceStateNameStopping := "stopping".
Definition InstanceStateNameStopped := "stopped".

End ec2.

(** [libmachine/state]. *)
Module state.
Inductive State :=
| None | Running | Paused | Saved | Stopped | Stopping | Starting
| Error | Timeout.

Definition eqb (a b : State) : bool :=
  match a, b with
  | None, None | Running, Running | Paused, Paused | Saved, Saved
  | Stopped, Stopped | Stopping, Stopping | Starting, Starting
  | Error, Error | Timeout, Timeout => true
  | _, _ => false
  end.
End state.

(** ** Constants of the driver *)

Definition ipRange := "0.0.0.0/0".
Definition machineSecurityGroupName := "rancher-nodes".
Definition machineTag := "rancher-nodes".
Definition defaultSecurityGroup := machineSecurityGroupName.
Definition charset := "abcdefghijklmnopqrstuvwxyzABCDEFGHIJKLMNOPQRSTUVWXYZ".

Definition dockerPort := 2376.
Definition kubeApiPort := 6443.
Definition httpPort := 80.
Definition httpsPort := 443.
Definition nodeExporter := 9796.
Definition etcdPorts := (2379, 2380).
Definition vxlanPorts := (4789, 4789).
Definition flannelPorts := (8472, 8472).
Definition otherKubePorts := (10250, 10252).
Definition kubeProxyPorts := (10256, 10256).
Definition nodePorts := (30000, 32767).
Definition calicoPort := 179.

(** ** The driver *)

Record Driver := {
  (* of the embedded BaseDriver *)
  MachineName : string;
  IPAddress : string;
  (* of the driver *)
  Region : string;
  AMI : string;
  ExistingKey : bool;
  KeyName : string;
  InstanceId : string;
  InstanceType : string;
  PrivateIPAddress : string;
  SecurityGroupId : string;
  SecurityGroupIds : list string;
  SecurityGroupName : string;
  SecurityGroupNames : list string;
  OpenPorts : list string;
  Tags : string;
  DeviceName : string;
  RootSize : Z;
  VolumeType : string;
  IamInstanceProfile : string;
  VpcId : string;
  SubnetId : string;
  Zone : string;
  PrivateIPOnly : bool;
  UsePrivateIP : bool;
  UseEbsOptimizedInstance : bool;
  SSHPrivateKeyPath : string;
  Endpoint : string;
  UserDataFile : string;
  bdmList : list ec2.BlockDeviceMapping;
  HttpEndpoint : string;
  HttpTokens : string;
  AllocationId : string;
  PublicIp : string
}.

(** Assignments to the fields the methods write. *)

Definition set_IPAddress (v : string) (d : Driver) : Driver :=
  {|
     MachineName := MachineName d; IPAddress := v; Region := Region d; AMI
     := AMI d; ExistingKey := ExistingKey d; KeyName := KeyName d;
     InstanceId := InstanceId d; InstanceType := InstanceType d;
     PrivateIPAddress := PrivateIPAddress d; SecurityGroupId :=
     SecurityGroupId d; SecurityGroupIds := SecurityGroupIds d;
     SecurityGroupName := SecurityGroupName d; SecurityGroupNames :=
     SecurityGroupNames d; OpenPorts := OpenPorts d; Tags := Tags d;
     DeviceName := DeviceName d; RootSize := RootSize d; VolumeType :=
     VolumeType d; IamInstanceProfile := IamInstanceProfile d; VpcId :=
     VpcId d; SubnetId := SubnetId d; Zone := Zone d; PrivateIPOnly :=
     PrivateIPOnly d; UsePrivateIP := UsePrivateIP d;
     UseEbsOptimizedInstance := UseEbsOptimizedInstance d;
     SSHPrivateKeyPath := SSHPrivateKeyPath d; Endpoint := Endpoint d;
     UserDataFile := UserDataFile d; bdmList := bdmList d; HttpEndpoint :=
     HttpEndpoint d; HttpTokens := HttpTokens d; AllocationId :=
     AllocationId d; PublicIp := PublicIp d
  |}.

Definition set_KeyName (v : string) (d : Driver) : Driver :=
  {|
     MachineName := MachineName d; IPAddress := IPAddress d; Region :=
     Region d; AMI := AMI d; ExistingKey := ExistingKey d; KeyName := v;
     InstanceId := InstanceId d; InstanceType := InstanceType d;
     PrivateIPAddress := PrivateIPAddress d; SecurityGroupId :=
     SecurityGroupId d; SecurityGroupIds := SecurityGroupIds d;
     SecurityGroupName := SecurityGroupName d; SecurityGroupNames :=
     SecurityGroupNames d; OpenPorts := OpenPorts d; Tags := Tags d;
     DeviceName := DeviceName d; RootSize := RootSize d; VolumeType :=
     VolumeType d; IamInstanceProfile := IamInstanceProfile d; VpcId :=
     VpcId d; SubnetId := SubnetId d; Zone := Zone d; PrivateIPOnly :=
     PrivateIPOnly d; UsePrivateIP := UsePrivateIP d;
     UseEbsOptimizedInstance := UseEbsOptimizedInstance d;
     SSHPrivateKeyPath := SSHPrivateKeyPath d; Endpoint := Endpoint d;
     UserDataFile := UserDataFile d; bdmList := bdmList d; HttpEndpoint :=
     HttpEndpoint d; HttpTokens := HttpTokens d; AllocationId :=
     AllocationId d; PublicIp := PublicIp d
  |}.

Definition set_InstanceId (v : string) (d : Driver) : Driver :=
  {|
     MachineName := MachineName d; IPAddress := IPAddress d; Region :=
     Region d; AMI := AMI d; ExistingKey := ExistingKey d; KeyName :=
     KeyName d; InstanceId := v; InstanceType := InstanceType d;
     PrivateIPAddress := PrivateIPAddress d; SecurityGroupId :=
     SecurityGroupId d; SecurityGroupIds := SecurityGroupIds d;
     SecurityGroupName := SecurityGroupName d; SecurityGroupNames :=
     SecurityGroupNames d; OpenPorts := OpenPorts d; Tags := Tags d;
     DeviceName := DeviceName d; RootSize := RootSize d; VolumeType :=
     VolumeType d; IamInstanceProfile := IamInstanceProfile d; VpcId :=
     VpcId d; SubnetId := SubnetId d; Zone := Zone d; PrivateIPOnly :=
     PrivateIPOnly d; UsePrivateIP := UsePrivateIP d;
     UseEbsOptimizedInstance := UseEbsOptimizedInstance d;
     SSHPrivateKeyPath := SSHPrivateKeyPath d; Endpoint := Endpoint d;
     UserDataFile := UserDataFile d; bdmList := bdmList d; HttpEndpoint :=
     HttpEndpoint d; HttpTokens := HttpTokens d; AllocationId :=
     AllocationId d; PublicIp := PublicIp d
  |}.

Definition set_PrivateIPAddress (v : string) (d : Driver) : Driver :=
  {|
     MachineName := MachineName d; IPAddress := IPAddress d; Region :=
     Region d; AMI := AMI d; ExistingKey := ExistingKey d; KeyName :=
     KeyName d; InstanceId := InstanceId d; InstanceType := InstanceType
     d; PrivateIPAddress := v; SecurityGroupId := SecurityGroupId d;
     SecurityGroupIds := SecurityGroupIds d; SecurityGroupName :=
     SecurityGroupName d; SecurityGroupNames := SecurityGroupNames d;
     OpenPorts := OpenPorts d; Tags := Tags d; DeviceName := DeviceName d;
     RootSize := RootSize d; VolumeType := VolumeType d;
     IamInstanceProfile := IamInstanceProfile d; VpcId := VpcId d;
     SubnetId := SubnetId d; Zone := Zone d; PrivateIPOnly :=
     PrivateIPOnly d; UsePrivateIP := UsePrivateIP d;
     UseEbsOptimizedInstance := UseEbsOptimizedInstance d;
     SSHPrivateKeyPath := SSHPrivateKeyPath d; Endpoint := Endpoint d;
     UserDataFile := UserDataFile d; bdmList := bdmList d; HttpEndpoint :=
     HttpEndpoint d; HttpTokens := HttpTokens d; AllocationId :=
     AllocationId d; PublicIp := PublicIp d
  |}.

Definition set_SecurityGroupIds (v : list string) (d : Driver) : Driver :=
  {|
     MachineName := MachineName d; IPAddress := IPAddress d; Region :=
     Region d; AMI := AMI d; ExistingKey := ExistingKey d; KeyName :=
     KeyName d; InstanceId := InstanceId d; InstanceType := InstanceType
     d; PrivateIPAddress := PrivateIPAddress d; SecurityGroupId :=
     SecurityGroupId d; SecurityGroupIds := v; SecurityGroupName :=
     SecurityGroupName d; SecurityGroupNames := SecurityGroupNames d;
     OpenPorts := OpenPorts d; Tags := Tags d; DeviceName := DeviceName d;
     RootSize := RootSize d; VolumeType := VolumeType d;
     IamInstanceProfile := IamInstanceProfile d; VpcId := VpcId d;
     SubnetId := SubnetId d; Zone := Zone d; PrivateIPOnly :=
     PrivateIPOnly d; UsePrivateIP := UsePrivateIP d;
     UseEbsOptimizedInstance := UseEbsOptimizedInstance d;
     SSHPrivateKeyPath := SSHPrivateKeyPath d; Endpoint := Endpoint d;
     UserDataFile := UserDataFile d; bdmList := bdmList d; HttpEndpoint :=
     HttpEndpoint d; HttpTokens := HttpTokens d; AllocationId :=
     AllocationId d; PublicIp := PublicIp d
  |}.

Definition set_bdmList (v : list ec2.BlockDeviceMapping) (d : Driver) : Driver :=
  {|
     MachineName := MachineName d; IPAddress := IPAddress d; Region :=
     Region d; AMI := AMI d; ExistingKey := ExistingKey d; KeyName :=
     KeyName d; InstanceId := InstanceId d; InstanceType := InstanceType
     d; PrivateIPAddress := PrivateIPAddress d; SecurityGroupId :=
     SecurityGroupId d; SecurityGroupIds := SecurityGroupIds d;
     SecurityGroupName := SecurityGroupName d; SecurityGroupNames :=
     SecurityGroupNames d; OpenPorts := OpenPorts d; Tags := Tags d;
     DeviceName := DeviceName d; RootSize := RootSize d; VolumeType :=
     VolumeType d; IamInstanceProfile := IamInstanceProfile d; VpcId :=
     VpcId d; SubnetId := SubnetId d; Zone := Zone d; PrivateIPOnly :=
     PrivateIPOnly d; UsePrivateIP := UsePrivateIP d;
     UseEbsOptimizedInstance := UseEbsOptimizedInstance d;
     SSHPrivateKeyPath := SSHPrivateKeyPath d; Endpoint := Endpoint d;
     UserDataFile := UserDataFile d; bdmList := v; HttpEndpoint :=
     HttpEndpoint d; HttpTokens := HttpTokens d; AllocationId :=
     AllocationId d; PublicIp := PublicIp d
  |}.

Definition set_AllocationId (v : string) (d : Driver) : Driver :=
  {|
     MachineName := MachineName d; IPAddress := IPAddress d; Region :=
     Region d; AMI := AMI d; ExistingKey := ExistingKey d; KeyName :=
     KeyName d; InstanceId := InstanceId d; InstanceType := InstanceType
     d; PrivateIPAddress := PrivateIPAddress d; SecurityGroupId :=
     SecurityGroupId d; SecurityGroupIds := SecurityGroupIds d;
     SecurityGroupName := SecurityGroupName d; SecurityGroupNames :=
     SecurityGroupNames d; OpenPorts := OpenPorts d; Tags := Tags d;
     DeviceName := DeviceName d; RootSize := RootSize d; VolumeType :=
     VolumeType d; IamInstanceProfile := IamInstanceProfile d; VpcId :=
     VpcId d; SubnetId := SubnetId d; Zone := Zone d; PrivateIPOnly :=
     PrivateIPOnly d; UsePrivateIP := UsePrivateIP d;
     UseEbsOptimizedInstance := UseEbsOptimizedInstance d;
     SSHPrivateKeyPath := SSHPrivateKeyPath d; Endpoint := Endpoint d;
     UserDataFile := UserDataFile d; bdmList := bdmList d; HttpEndpoint :=
     HttpEndpoint d; HttpTokens := HttpTokens d; AllocationId := v;
     PublicIp := PublicIp d
  |}.

Definition set_PublicIp (v : string) (d : Driver) : Driver :=
  {|
     MachineName := MachineName d; IPAddress := IPAddress d; Region :=
     Region d; AMI := AMI d; ExistingKey := ExistingKey d; KeyName :=
     KeyName d; InstanceId := InstanceId d; InstanceType := InstanceType
     d; PrivateIPAddress := PrivateIPAddress d; SecurityGroupId :=
     SecurityGroupId d; SecurityGroupIds := SecurityGroupIds d;
     SecurityGroupName := SecurityGroupName d; SecurityGroupNames :=
     SecurityGroupNames d; OpenPorts := OpenPorts d; Tags := Tags d;
     DeviceName := DeviceName d; RootSize := RootSize d; VolumeType :=
     VolumeType d; IamInstanceProfile := IamInstanceProfile d; VpcId :=
     VpcId d; SubnetId := SubnetId d; Zone := Zone d; PrivateIPOnly :=
     PrivateIPOnly d; UsePrivateIP := UsePrivateIP d;
     UseEbsOptimizedInstance := UseEbsOptimizedInstance d;
     SSHPrivateKeyPath := SSHPrivateKeyPath d; Endpoint := Endpoint d;
     UserDataFile := UserDataFile d; bdmList := bdmList d; HttpEndpoint :=
     HttpEndpoint d; HttpTokens := HttpTokens d; AllocationId :=
     AllocationId d; PublicIp := v
  |}.

(** ** Requests, the client and the rest of the outside world *)

(** The requests of the [Ec2Client] interface, as sent; named after the
    SDK's input structs. *)
Inductive Request :=
| DescribeInstancesInput (InstanceIds : list string)
| RunInstancesInput (input : ec2.RunInstancesInput)
| TerminateInstancesInput (InstanceIds : list string)
| AllocateAddressInput (Domain : string)
| AssociateAddressInput (AllocationId InstanceId PublicIp : string)
| ModifyInstanceMetadataOptionsInput (InstanceId HttpEndpoint HttpTokens : string)
| CreateTagsInput (Resources : list string) (Tags : list ec2.Tag)
| DescribeSecurityGroupsInput (Filters : list ec2.Filter) (GroupIds : list string)
| CreateSecurityGroupInput (GroupName Description VpcId : string)
| AuthorizeSecurityGroupIngressInput (GroupId : string)
    (IpPermissions : list ec2.IpPermission)
| ImportKeyPairInput (KeyName PublicKeyMaterial : string)
| DeleteKeyPairInput (KeyName : option string).

(** What the driver runs against: the client (its answers may depend on
    everything sent before, so each handler steps a remote world [W]), the
    local file system, the random generator, and the functions of other
    packages whose text is never inspected by the driver. *)
Record Env (W : Type) := {
  (* Ec2Client *)
  DescribeInstances : list string -> W -> result (list ec2.Reservation) * W;
  RunInstances : ec2.RunInstancesInput -> W -> result ec2.Reservation * W;
  TerminateInstances : list string -> W -> result unit * W;
  AllocateAddress : string -> W -> result ec2.Address * W;
  AssociateAddress : string -> string -> string -> W -> result unit * W;
  ModifyInstanceMetadataOptions : string -> string -> string -> W -> result unit * W;
  CreateTags : list string -> list ec2.Tag -> W -> result unit * W;
  DescribeSecurityGroups :
    list ec2.Filter -> list string -> W -> result (list ec2.SecurityGroup) * W;
  CreateSecurityGroup : string -> string -> string -> W -> result string * W;
  AuthorizeSecurityGroupIngress :
    string -> list ec2.IpPermission -> W -> result unit * W;
  ImportKeyPair : string -> string -> W -> result unit * W;
  DeleteKeyPair : option string -> W -> result unit * W;
  (* ssh.GenerateSSHKey, mcnutils.CopyFile, ioutil.ReadFile *)
  GenerateSSHKey : string -> W -> option error * W;
  CopyFile : string -> string -> W -> option error * W;
  ReadFile : string -> W -> result string;
  (* the next draw of the time-seeded generator; [Intn n] is taken modulo
     [n] below, so that it lies in [0, n) as the library promises *)
  rand_draw : W -> Z * W;
  (* BaseDriver.GetSSHKeyPath *)
  GetSSHKeyPath : Driver -> string;
  (* base64.StdEncoding.EncodeToString, strconv.Quote, version.Version,
     and how mcnutils.MultiError renders the texts of its members *)
  EncodeToString : string -> string;
  Quote : string -> string;
  Version : string;
  MultiError_text : list string -> string;
  (* mcnutils.WaitFor: the attempt budget and the error on exhaustion *)
  maxAttempts : nat;
  errRetriesExceeded : error
}.

Arguments DescribeInstances {W}.
Arguments RunInstances {W}.
Arguments TerminateInstances {W}.
Arguments AllocateAddress {W}.
Arguments AssociateAddress {W}.
Arguments ModifyInstanceMetadataOptions {W}.
Arguments CreateTags {W}.
Arguments DescribeSecurityGroups {W}.
Arguments CreateSecurityGroup {W}.
Arguments AuthorizeSecurityGroupIngress {W}.
Arguments ImportKeyPair {W}.
Arguments DeleteKeyPair {W}.
Arguments GenerateSSHKey {W}.
Arguments CopyFile {W}.
Arguments ReadFile {W}.
Arguments rand_draw {W}.
Arguments GetSSHKeyPath {W}.
Arguments EncodeToString {W}.
Arguments Quote {W}.
Arguments Version {W}.
Arguments MultiError_text {W}.
Arguments maxAttempts {W}.
Arguments errRetriesExceeded {W}.

(** ** The monad of the methods *)

Record State (W : Type) := {
  driver : Driver;
  world : W;
  requests : list Request   (* the requests sent so far, oldest first *)
}.
Arguments driver {W}.
Arguments world {W}.
Arguments requests {W}.
Arguments Build_State {W}.

Inductive outcome (A : Type) : Type :=
| Ret (a : A)
| Panic (msg : string).
Arguments Ret {A}.
Arguments Panic {A}.

Definition M (W A : Type) : Type := State W -> outcome A * State W.

Definition ret {W A} (a : A) : M W A := fun st => (Ret a, st).

Definition bind {W A B} (m : M W A) (k : A -> M W B) : M W B :=
  fun st =>
    match m st with
    | (Ret a, st') => k a st'
    | (Panic msg, st') => (Panic msg, st')
    end.

Definition panic {W A} (msg : string) : M W A := fun st => (Panic msg, st).

Definition get {W} : M W Driver := fun st => (Ret (driver st), st).

Definition modify {W} (f : Driver -> Driver) : M W unit :=
  fun st =>
    (Ret tt, {| driver := f (driver st); world := world st;
                requests := requests st |}).

(** A call through the client: the request is logged, the world steps. *)
Definition call {W A} (rq : Request) (h : W -> A * W) : M W A :=
  fun st =>
    let (a, w) := h (world st) in
    (Ret a, {| driver := driver st; world := w;
               requests := requests st ++ [rq] |}).

(** A local effect (file system, generator): the world steps, no request. *)
Definition local {W A} (h : W -> A * W) : M W A :=
  fun st =>
    let (a, w) := h (world st) in
    (Ret a, {| driver := driver st; world := w; requests := requests st |}).

(** A look at the world that leaves it as it is (reading a file). *)
Definition read {W A} (h : W -> A) : M W A :=
  fun st => (Ret (h (world st)), st).

Declare Scope go_scope.
Delimit Scope go_scope with go.
Notation "'let*' x ':=' c 'in' k" := (bind c (fun x => k))
  (at level 10, x pattern, c at level 100, k at level 200) : go_scope.
Notation "c ';;' k" := (bind c (fun _ => k))
  (at level 100, k at level 200, right associativity) : go_scope.
Open Scope go_scope.

(** ** The methods *)

Section Methods.

Context {W : Type}.
Variable E : Env W.

(** [err.Error()], also what the verbs [%s] and [%v] print of an error. *)
Fixpoint Error (e : error) : string :=
  match e with
  | errorString s => s
  | MultiError Errs => MultiError_text E (map Error Errs)
  end.

(** The [Error()] text of the [strconv.NumError] that [ParseInt] returns. *)
Definition NumError_text (num : string) (e : strconv.NumError) : string :=
  "strconv.ParseInt: parsing " +:+ Quote E num +:+ ": " +:+
  match e with
  | strconv.ErrSyntax => "invalid syntax"
  | strconv.ErrRange => "value out of range"
  end.

(** [mcnutils.WaitFor]: evaluate the predicate until it holds, at most
    [maxAttempts] times (the pause between attempts has no counterpart
    here). *)
Fixpoint WaitForSpecific (f : M W bool) (attempts : nat) : M W (option error) :=
  match attempts with
  | O => ret (Some (errRetriesExceeded E))
  | S n =>
      let* stop := f in
      if stop : bool then ret None else WaitForSpecific f n
  end.

Definition WaitFor (f : M W bool) : M W (option error) :=
  WaitForSpecific f (maxAttempts E).

Definition migrateStringToSlice (value : string) (values : list string)
  : list string :=
  (if String.eqb value "" then [] else [value]) ++ values.

Definition securityGroupNames (d : Driver) : list string :=
  migrateStringToSlice (SecurityGroupName d) (SecurityGroupNames d).

Definition securityGroupIds (d : Driver) : list string :=
  migrateStringToSlice (SecurityGroupId d) (SecurityGroupIds d).

Definition getRegionZone (d : Driver) : string :=
  if String.eqb (Endpoint d) "" then Region d +:+ Zone d else Zone d.

Definition Base64UserData : M W (string * option error) :=
  let* d := get in
  if negb (String.eqb (UserDataFile d) "") then
    let* buf := read (ReadFile E (UserDataFile d)) in
    match buf with
    | inr ioerr => ret ("", Some errorReadingUserData)
    | inl buf => ret (EncodeToString E buf, None)
    end
  else ret ("", None).

Definition getInstance : M W (result ec2.Instance) :=
  let* d := get in
  let* r := call (DescribeInstancesInput [InstanceId d])
                 (DescribeInstances E [InstanceId d]) in
  match r with
  | inr err => ret (inr err)
  | inl Reservations =>
      match Reservations with
      | [] => panic "index out of range [0] with length 0"
      | r0 :: _ =>
          match ec2.Instances r0 with
          | [] => panic "index out of range [0] with length 0"
          | i0 :: _ => ret (inl i0)
          end
      end
  end.

Definition GetIP : M W (string * option error) :=
  let* r := getInstance in
  match r with
  | inr err => ret ("", Some err)
  | inl inst =>
      let* d := get in
      if PrivateIPOnly d then
        match ec2.PrivateIpAddress inst with
        | None =>
            ret ("", Some (errorString
                   ("No private IP for instance " +:+ ec2.InstanceId inst)))
        | Some ip => ret (ip, None)
        end
      else if UsePrivateIP d then
        match ec2.PrivateIpAddress inst with
        | None =>
            ret ("", Some (errorString
                   ("No private IP for instance " +:+ ec2.InstanceId inst)))
        | Some ip => ret (ip, None)
        end
      else
        match ec2.PublicIpAddress inst with
        | None =>
            ret ("", Some (errorString
                   ("No IP for instance " +:+ ec2.InstanceId inst)))
        | Some ip => ret (ip, None)
        end
  end.

Definition GetState : M W (state.State * option error) :=
  let* r := getInstance in
  match r with
  | inr err => ret (state.Error, Some err)
  | inl inst =>
      let n := ec2.StateName inst in
      if String.eqb n ec2.InstanceStateNamePending then ret (state.Starting, None)
      else if String.eqb n ec2.InstanceStateNameRunning then ret (state.Running, None)
      else if String.eqb n ec2.InstanceStateNameStopping then ret (state.Stopping, None)
      else if String.eqb n ec2.InstanceStateNameShuttingDown then ret (state.Stopping, None)
      else if String.eqb n ec2.InstanceStateNameStopped then ret (state.Stopped, None)
      else if String.eqb n ec2.InstanceStateNameTerminated then ret (state.Error, None)
      else ret (state.Error, None)
  end.

Definition instanceIsRunning : M W bool :=
  let* r := GetState in
  let (st, _) := r : state.State * option error in
  ret (state.eqb st state.Running).

Definition waitForInstance : M W (option error) :=
  WaitFor instanceIsRunning.

Definition instanceIpAvailable : M W bool :=
  let* r := GetIP in
  let (ip, _) := r : string * option error in
  if negb (String.eqb ip "") then
    modify (set_IPAddress ip) ;; ret true
  else ret false.

(** The loop [for i := range b { b[i] = charset[r.Intn(len(charset))] }]
    over a buffer of [n] bytes. *)
Fixpoint randomBytes (n : nat) : M W string :=
  match n with
  | O => ret ""
  | S n' =>
      let* x := local (rand_draw E) in
      match byte_at charset (x mod Z.of_nat (String.length charset)) with
      | None => panic "index out of range"
      | Some c =>
          let* rest := randomBytes n' in
          ret (String c rest)
      end
  end.

(** The first part of [createKeyPair]: the local key files.  It yields the
    path [keyPath], or what [createKeyPair] returns at once (an error, or
    nil when an existing key pair was named). *)
Definition resolveKeyPath : M W (string + option error) :=
  let* d := get in
  if String.eqb (SSHPrivateKeyPath d) "" then
    let* err := local (GenerateSSHKey E (GetSSHKeyPath E d)) in
    match err with
    | Some e => ret (inr (Some e))
    | None => ret (inl (GetSSHKeyPath E d))
    end
  else
    let* err := local (CopyFile E (SSHPrivateKeyPath d) (GetSSHKeyPath E d)) in
    match err with
    | Some e => ret (inr (Some e))
    | None =>
        if negb (String.eqb (KeyName d) "") then ret (inr None)
        else
          let* err := local (CopyFile E (SSHPrivateKeyPath d +:+ ".pub")
                                         (GetSSHKeyPath E d +:+ ".pub")) in
          match err with
          | Some e => ret (inr (Some e))
          | None => ret (inl (SSHPrivateKeyPath d))
          end
    end.

Definition createKeyPair : M W (option error) :=
  let* keyPath := resolveKeyPath in
  match keyPath with
  | inr returned => ret returned
  | inl keyPath =>
      let* publicKey := read (ReadFile E (keyPath +:+ ".pub")) in
      match publicKey with
      | inr err => ret (Some err)
      | inl publicKey =>
          let* b := randomBytes 5 in
          let* d := get in
          let keyName := MachineName d +:+ "-" +:+ b in
          let* r := call (ImportKeyPairInput keyName publicKey)
                         (ImportKeyPair E keyName publicKey) in
          match r with
          | inr err => ret (Some err)
          | inl _ => modify (set_KeyName keyName) ;; ret None
          end
      end
  end.

Definition terminate : M W (option error) :=
  let* d := get in
  if String.eqb (InstanceId d) "" then ret None
  else
    let* r := call (TerminateInstancesInput [InstanceId d])
                   (TerminateInstances E [InstanceId d]) in
    match r with
    | inr err =>
        if strings.HasPrefix (Error err) "unknown instance" ||
           strings.HasPrefix (Error err) "InvalidInstanceID.NotFound"
        then ret None
        else ret (Some (errorString
                          ("unable to terminate instance: " +:+ Error err)))
    | inl _ => ret None
    end.

Definition deleteKeyPair : M W (option error) :=
  let* d := get in
  if String.eqb (KeyName d) "" then ret None
  else
    let* i := getInstance in
    match i with
    | inr err => ret (Some err)
    | inl instance =>
        let* r := call (DeleteKeyPairInput (ec2.KeyName instance))
                       (DeleteKeyPair E (ec2.KeyName instance)) in
        match r with
        | inr err => ret (Some err)
        | inl _ => ret None
        end
    end.

Definition Remove : M W (option error) :=
  let Errs := [] in
  let* err := terminate in
  let Errs := match err with Some e => Errs ++ [e] | None => Errs end in
  let* d := get in
  let* Errs :=
    (if negb (ExistingKey d) then
       let* err := deleteKeyPair in
       ret (match err with Some e => Errs ++ [e] | None => Errs end)
     else ret Errs) in
  match Errs with
  | [] => ret None
  | _ => ret (Some (MultiError Errs))
  end.

(** The loop [for i := 0; i < len(t)-1; i += 2] of [configureTags]. *)
Fixpoint tagPairs (t : list string) : list ec2.Tag :=
  match t with
  | k :: v :: rest => {| ec2.Key := k; ec2.Value := v |} :: tagPairs rest
  | _ => []
  end.

Definition configureTags (tagGroups : string) : M W (option error) :=
  let* d := get in
  let tags := [ {| ec2.Key := "Name"; ec2.Value := MachineName d |} ] in
  match slice_to (MachineName d) (strings.IndexByte (MachineName d) "-") with
  | None => panic "slice bounds out of range"
  | Some ClusterName =>
      let tags := tags ++
        [ {| ec2.Key := "OscK8sClusterID/" +:+ ClusterName; ec2.Value := "owned" |};
          {| ec2.Key := "OscK8sNodeName"; ec2.Value := MachineName d |} ] in
      let tags :=
        if negb (String.eqb tagGroups "")
        then tags ++ tagPairs (strings.Split tagGroups ",")
        else tags in
      let* r := call (CreateTagsInput [InstanceId d] tags)
                     (CreateTags E [InstanceId d] tags) in
      match r with
      | inr err => ret (Some err)
      | inl _ => ret None
      end
  end.

Definition updateBDM (d : Driver) (bdm : ec2.BlockDeviceMapping)
  : ec2.BlockDeviceMapping :=
  match ec2.Ebs bdm with
  | Some ebs =>
      let ebs :=
        if String.eqb (ec2.DeviceName bdm) (DeviceName d)
        then {| ec2.SnapshotId := ec2.SnapshotId ebs;
                ec2.VolumeSize := Some (RootSize d);
                ec2.VolumeType := Some (VolumeType d);
                ec2.DeleteOnTermination := ec2.DeleteOnTermination ebs |}
        else ebs in
      {| ec2.DeviceName := ec2.DeviceName bdm;
         ec2.VirtualName := ec2.VirtualName bdm;
         ec2.Ebs := Some {| ec2.SnapshotId := ec2.SnapshotId ebs;
                            ec2.VolumeSize := ec2.VolumeSize ebs;
                            ec2.VolumeType := ec2.VolumeType ebs;
                            ec2.DeleteOnTermination := Some true |} |}
  | None => bdm
  end.

(** The entries are reached through pointers: the loop rewrites the
    mappings held by [d.bdmList] themselves and returns those that have
    an Ebs part. *)
Definition updateBDMList : M W (list ec2.BlockDeviceMapping) :=
  let* d := get in
  let mutated := map (updateBDM d) (bdmList d) in
  modify (set_bdmList mutated) ;;
  ret (foldl (fun bdmList bdm =>
                match ec2.Ebs bdm with
                | Some _ => bdmList ++ [bdm]
                | None => bdmList
                end) [] mutated).

Fixpoint hasTagKey (tags : list ec2.Tag) (key : string) : bool :=
  match tags with
  | [] => false
  | tag :: tags' => if String.eqb (ec2.Key tag) key then true else hasTagKey tags' key
  end.

(** A read of the Go map [hasPortsInbound]: a missing key reads false. *)
Definition has (hasPortsInbound : gmap string bool) (key : string) : bool :=
  default false (hasPortsInbound !! key).

(** The key under which an existing permission is recorded:
    [fmt.Sprintf("%d/%s", *p.FromPort, *p.IpProtocol)]. *)
Definition portKey (port : Z) (protocol : string) : string :=
  FormatInt port +:+ "/" +:+ protocol.

Definition existingPorts (perms : list ec2.IpPermission) : gmap string bool :=
  foldl (fun hasPortsInbound p =>
           match ec2.FromPort p with
           | Some fromPort =>
               <[portKey fromPort (ec2.IpProtocol p) := true]> hasPortsInbound
           | None => hasPortsInbound
           end) ∅ perms.

(** A permission open to any source, and one open to the group itself. *)
Definition openToAll (protocol : string) (fromPort toPort : Z)
  : ec2.IpPermission :=
  {| ec2.IpProtocol := protocol; ec2.FromPort := Some fromPort;
     ec2.ToPort := Some toPort; ec2.IpRanges := [ipRange];
     ec2.UserIdGroupPairs := [] |}.

Definition openToGroup (protocol : string) (fromPort toPort : Z)
  (groupId : string) : ec2.IpPermission :=
  {| ec2.IpProtocol := protocol; ec2.FromPort := Some fromPort;
     ec2.ToPort := Some toPort; ec2.IpRanges := [];
     ec2.UserIdGroupPairs := [groupId] |}.

(** [if !hasPortsInbound[key] { inboundPerms = append(inboundPerms, p) }] *)
Definition addMissing (hasPortsInbound : gmap string bool) (key : string)
  (p : ec2.IpPermission) (inboundPerms : list ec2.IpPermission)
  : list ec2.IpPermission :=
  if negb (has hasPortsInbound key) then inboundPerms ++ [p] else inboundPerms.

(** The loop over [d.OpenPorts]. *)
Fixpoint openPortPerms (hasPortsInbound : gmap string bool)
  (ports : list string) (inboundPerms : list ec2.IpPermission)
  : result (list ec2.IpPermission) :=
  match ports with
  | [] => inl inboundPerms
  | p :: ports' =>
      let (port, protocol) := driverutil.SplitPortProto p in
      match strconv.ParseInt port with
      | inr err =>
          inr (errorString ("invalid port number " +:+ port +:+ ": " +:+
                            NumError_text port err))
      | inl portNum =>
          openPortPerms hasPortsInbound ports'
            (addMissing hasPortsInbound (port +:+ "/" +:+ protocol)
               (openToAll protocol portNum portNum) inboundPerms)
      end
  end.

Definition configureSecurityGroupPermissions (d : Driver)
  (group : ec2.SecurityGroup) : result (list ec2.IpPermission) :=
  let hasPortsInbound := existingPorts (ec2.IpPermissions group) in
  let add := addMissing hasPortsInbound in
  let gid := ec2.GroupId group in
  let inboundPerms := [] in
  let inboundPerms := add "22/tcp" (openToAll "tcp" 22 22) inboundPerms in
  let inboundPerms :=
    add (FormatInt dockerPort +:+ "/tcp")
        (openToAll "tcp" dockerPort dockerPort) inboundPerms in
  let inboundPerms :=
    if String.eqb (ec2.GroupName group) defaultSecurityGroup &&
       hasTagKey (ec2.Tags group) machineSecurityGroupName
    then
      (* kubeapi *)
      let inboundPerms :=
        add (FormatInt kubeApiPort +:+ "/tcp")
            (openToAll "tcp" kubeApiPort kubeApiPort) inboundPerms in
      (* etcd *)
      let inboundPerms :=
        add (FormatInt (fst etcdPorts) +:+ "/tcp")
            (openToGroup "tcp" (fst etcdPorts) (snd etcdPorts) gid) inboundPerms in
      (* vxlan *)
      let inboundPerms :=
        add (FormatInt (fst vxlanPorts) +:+ "/udp")
            (openToGroup "udp" (fst vxlanPorts) (snd vxlanPorts) gid) inboundPerms in
      (* flannel *)
      let inboundPerms :=
        add (FormatInt (fst flannelPorts) +:+ "/udp")
            (openToGroup "udp" (fst flannelPorts) (snd flannelPorts) gid) inboundPerms in
      (* others *)
      let inboundPerms :=
        add (FormatInt (fst otherKubePorts) +:+ "/tcp")
            (openToGroup "tcp" (fst otherKubePorts) (snd otherKubePorts) gid)
            inboundPerms in
      (* kube proxy *)
      let inboundPerms :=
        add (FormatInt (fst kubeProxyPorts) +:+ "/tcp")
            (openToGroup "tcp" (fst kubeProxyPorts) (snd kubeProxyPorts) gid)
            inboundPerms in
      (* node exporter *)
      let inboundPerms :=
        add (FormatInt nodeExporter +:+ "/tcp")
            (openToGroup "tcp" nodeExporter nodeExporter gid) inboundPerms in
      (* nodePorts *)
      let inboundPerms :=
        add (FormatInt (fst nodePorts) +:+ "/tcp")
            (openToAll "tcp" (fst nodePorts) (snd nodePorts)) inboundPerms in
      let inboundPerms :=
        add (FormatInt (fst nodePorts) +:+ "/udp")
            (openToAll "udp" (fst nodePorts) (snd nodePorts)) inboundPerms in
      (* nginx ingress *)
      let inboundPerms :=
        add (FormatInt httpPort +:+ "/tcp")
            (openToAll "tcp" httpPort httpPort) inboundPerms in
      let inboundPerms :=
        add (FormatInt httpsPort +:+ "/tcp")
            (openToAll "tcp" httpsPort httpsPort) inboundPerms in
      (* calico *)
      add (FormatInt calicoPort +:+ "/tcp")
          (openToGroup "tcp" calicoPort calicoPort gid) inboundPerms
    else inboundPerms in
  openPortPerms hasPortsInbound (OpenPorts d) inboundPerms.

Definition securityGroupAvailableFunc (id : string) : M W bool :=
  let* r := call (DescribeSecurityGroupsInput [] [id])
                 (DescribeSecurityGroups E [] [id]) in
  match r with
  | inl (_ :: _) => ret true
  | inl [] => ret false
  | inr _ => ret false
  end.

Definition groupFilters (names : list string) (vpc : string) : list ec2.Filter :=
  [ {| ec2.Name := "group-name"; ec2.Values := names |};
    {| ec2.Name := "vpc-id"; ec2.Values := [vpc] |} ].

Definition managedTag : ec2.Tag :=
  {| ec2.Key := machineTag; ec2.Value := Version E |}.

(** The [else] branch of the loop body of [configureSecurityGroups]: the
    group is not among those found; create it, tag it and wait for it. *)
Definition createGroup (groupName : string) : M W (result ec2.SecurityGroup) :=
  let* d := get in
  let* groupResp := call (CreateSecurityGroupInput groupName "Rancher Nodes" (VpcId d))
                         (CreateSecurityGroup E groupName "Rancher Nodes" (VpcId d)) in
  let* group :=
    match groupResp with
    | inr err =>
        if negb (strings.Contains (Error err) "already exists") then ret (inr err)
        else
          let* groups := call (DescribeSecurityGroupsInput
                                 (groupFilters [groupName] (VpcId d)) [])
                              (DescribeSecurityGroups E
                                 (groupFilters [groupName] (VpcId d)) []) in
          match groups with
          | inr err => ret (inr err)
          | inl [] => ret (inr (errorString "can't find security group"))
          | inl (g :: _) => ret (inl g)
          end
    | inl groupId =>
        ret (inl {| ec2.GroupId := groupId; ec2.GroupName := groupName;
                    ec2.VpcId := VpcId d; ec2.IpPermissions := [];
                    ec2.Tags := [] |})
    end in
  match group : result ec2.SecurityGroup with
  | inr err => ret (inr err)
  | inl group =>
      let* t := call (CreateTagsInput [ec2.GroupId group] [managedTag])
                     (CreateTags E [ec2.GroupId group] [managedTag]) in
      let tagged :=
        {| ec2.GroupId := ec2.GroupId group; ec2.GroupName := ec2.GroupName group;
           ec2.VpcId := ec2.VpcId group;
           ec2.IpPermissions := ec2.IpPermissions group;
           ec2.Tags := [managedTag] |} in
      let wait :=
        let* err := WaitFor (securityGroupAvailableFunc (ec2.GroupId group)) in
        match err with
        | Some e => ret (inr e)
        | None => ret (inl tagged)
        end in
      match t with
      | inr err =>
          if negb (strings.Contains (Error err) "already exists")
          then ret (inr (errorString
                           ("can't create tag for security group. err: " +:+
                            Error err)))
          else wait
      | inl _ => wait
      end
  end.

(** The body of the loop of [configureSecurityGroups] for one name. *)
Definition configureSecurityGroup (groupsByName : gmap string ec2.SecurityGroup)
  (groupName : string) : M W (option error) :=
  let* group :=
    match groupsByName !! groupName with
    | Some securityGroup => ret (inl securityGroup)
    | None => createGroup groupName
    end in
  match group : result ec2.SecurityGroup with
  | inr err => ret (Some err)
  | inl group =>
      modify (fun d => set_SecurityGroupIds
                         (SecurityGroupIds d ++ [ec2.GroupId group]) d) ;;
      let* d := get in
      match configureSecurityGroupPermissions d group with
      | inr err => ret (Some err)
      | inl [] => ret None
      | inl inboundPerms =>
          let* r := call (AuthorizeSecurityGroupIngressInput
                            (ec2.GroupId group) inboundPerms)
                         (AuthorizeSecurityGroupIngress E
                            (ec2.GroupId group) inboundPerms) in
          match r with
          | inr err =>
              if negb (strings.Contains (Error err) "already exists")
              then ret (Some err) else ret None
          | inl _ => ret None
          end
      end
  end.

Fixpoint configureEach (groupsByName : gmap string ec2.SecurityGroup)
  (groupNames : list string) : M W (option error) :=
  match groupNames with
  | [] => ret None
  | groupName :: rest =>
      let* err := configureSecurityGroup groupsByName groupName in
      match err with
      | Some e => ret (Some e)
      | None => configureEach groupsByName rest
      end
  end.

Definition configureSecurityGroups (groupNames : list string) : M W (option error) :=
  match groupNames with
  | [] => ret None
  | _ =>
      let* d := get in
      let* groups := call (DescribeSecurityGroupsInput
                             (groupFilters groupNames (VpcId d)) [])
                          (DescribeSecurityGroups E
                             (groupFilters groupNames (VpcId d)) []) in
      match groups with
      | inr err => ret (Some err)
      | inl SecurityGroups =>
          let groupsByName :=
            foldl (fun m securityGroup =>
                     <[ec2.GroupName securityGroup := securityGroup]> m)
                  (∅ : gmap string ec2.SecurityGroup) SecurityGroups in
          configureEach groupsByName groupNames
      end
  end.

Definition runInstancesInput (d : Driver) (userdata : string)
  (bdmList : list ec2.BlockDeviceMapping) : ec2.RunInstancesInput :=
  {| ec2.run_ImageId := AMI d;
     ec2.run_MinCount := 1;
     ec2.run_MaxCount := 1;
     ec2.run_AvailabilityZone := getRegionZone d;
     ec2.run_KeyName := KeyName d;
     ec2.run_InstanceType := InstanceType d;
     ec2.run_NetworkInterfaces :=
       [ {| ec2.DeviceIndex := 0;
            ec2.Groups := securityGroupIds d;
            ec2.SubnetId := SubnetId d;
            ec2.AssociatePublicIpAddress := negb (PrivateIPOnly d) |} ];
     ec2.run_IamInstanceProfile := IamInstanceProfile d;
     ec2.run_EbsOptimized := UseEbsOptimizedInstance d;
     ec2.run_BlockDeviceMappings := bdmList;
     ec2.run_UserData := userdata |}.

(** [innerCreate] from the instance returned by [RunInstances] on: wait,
    allocate and associate the external address, metadata options, tags. *)
Definition afterLaunch (instance : ec2.Instance) : M W (option error) :=
  modify (set_InstanceId (ec2.InstanceId instance)) ;;
  waitForInstance ;;
  let* eip := call (AllocateAddressInput "vpc") (AllocateAddress E "vpc") in
  match eip with
  | inr err =>
      ret (Some (errorString ("Error allocating external IP: " +:+ Error err)))
  | inl eip =>
      modify (set_AllocationId (ec2.AllocationId eip)) ;;
      modify (set_PublicIp (ec2.PublicIp eip)) ;;
      let* d := get in
      let* r := call (AssociateAddressInput (AllocationId d) (InstanceId d) (PublicIp d))
                     (AssociateAddress E (AllocationId d) (InstanceId d) (PublicIp d)) in
      match r with
      | inr err =>
          ret (Some (errorString ("Error associating external IP: " +:+ Error err)))
      | inl _ =>
          let* err := WaitFor instanceIpAvailable in
          match err with
          | Some e => ret (Some e)
          | None =>
              match ec2.PrivateIpAddress instance with
              | Some ip => modify (set_PrivateIPAddress ip)
              | None => ret tt
              end ;;
              let* d := get in
              let* err :=
                (if negb (String.eqb (HttpEndpoint d) "") ||
                    negb (String.eqb (HttpTokens d) "")
                 then
                   let* r := call (ModifyInstanceMetadataOptionsInput
                                     (InstanceId d) (HttpEndpoint d) (HttpTokens d))
                                  (ModifyInstanceMetadataOptions E
                                     (InstanceId d) (HttpEndpoint d) (HttpTokens d)) in
                   match r with
                   | inr err =>
                       ret (Some (errorString
                         ("Error modifying instance metadata options for instance: "
                          +:+ Error err)))
                   | inl _ => ret None
                   end
                 else ret None) in
              match err : option error with
              | Some e => ret (Some e)
              | None =>
                  let* err := configureTags (Tags d) in
                  match err with
                  | Some e =>
                      ret (Some (errorString
                        ("Unable to tag instance " +:+ InstanceId d +:+ ": " +:+
                         Error e)))
                  | None => ret None
                  end
              end
          end
      end
  end.

Definition innerCreate : M W (option error) :=
  let* err := createKeyPair in
  match err with
  | Some e => ret (Some (errorString ("unable to create key pair: " +:+ Error e)))
  | None =>
      let* d := get in
      let* err := configureSecurityGroups (securityGroupNames d) in
      match err with
      | Some e => ret (Some e)
      | None =>
          let* b64 := Base64UserData in
          match b64 : string * option error with
          | (_, Some e) => ret (Some e)
          | (userdata, None) =>
              let* bdmList := updateBDMList in
              let* d := get in
              let* inst := call (RunInstancesInput (runInstancesInput d userdata bdmList))
                                (RunInstances E (runInstancesInput d userdata bdmList)) in
              match inst with
              | inr err =>
                  ret (Some (errorString ("Error launching instance: " +:+ Error err)))
              | inl inst =>
                  match ec2.Instances inst with
                  | [] => panic "index out of range [0] with length 0"
                  | instance :: _ => afterLaunch instance
                  end
              end
          end
      end
  end.

Definition Create : M W (option error) :=
  let* err := innerCreate in
  match err with
  | Some e => Remove ;; ret (Some e)
  | None => ret None
  end.

End Methods.

(** ** Observations on a run *)

Definition panics {W A} (r : outcome A * State W) : Prop :=
  exists msg, fst r = Panic msg.

Definition returns {W A} (r : outcome A * State W) : Prop :=
  exists a, fst r = Ret a.

(** The state after one request [rq] answered by moving the world to [w]. *)
Definition sent {W} (st : State W) (rq : Request) (w : W) : State W :=
  {| driver := driver st; world := w; requests := requests st ++ [rq] |}.

Definition isDeleteKeyPair (rq : Request) : bool :=
  match rq with DeleteKeyPairInput _ => true | _ => false end.

Definition isAuthorizeIngress (rq : Request) : bool :=
  match rq with AuthorizeSecurityGroupIngressInput _ _ => true | _ => false end.

Definition isRunInstances (rq : Request) : bool :=
  match rq with RunInstancesInput _ => true | _ => false end.

(** The requests that change something on the provider's side. *)
Definition isMutation (rq : Request) : bool :=
  match rq with
  | DescribeInstancesInput _ | DescribeSecurityGroupsInput _ _ => false
  | _ => true
  end.

(** The terminate failures that stand for an instance already gone. *)
Definition notFound (text : string) : bool :=
  strings.HasPrefix text "unknown instance" ||
  strings.HasPrefix text "InvalidInstanceID.NotFound".

(** ** Concrete worlds

    Worlds in which every answer is fixed in advance, to run the methods
    on. *)

Module Sample.

Definition answer {T} (r : T) : unit -> T * unit := fun w => (r, w).

Definition failure {T} (text : string) : result T := inr (errorString text).

(** The world: the answers of the requests that matter to a run, the
    readable files, and the draws of the generator. *)
Definition env
  (describe : result (list ec2.Reservation))
  (run : result ec2.Reservation)
  (terminated : result unit)
  (allocated : result ec2.Address)
  (groups : result (list ec2.SecurityGroup))
  (imported : result unit)
  (files : string -> result string) : Env unit :=
  {| DescribeInstances := fun _ => answer describe;
     RunInstances := fun _ => answer run;
     TerminateInstances := fun _ => answer terminated;
     AllocateAddress := fun _ => answer allocated;
     AssociateAddress := fun _ _ _ => answer (inl tt);
     ModifyInstanceMetadataOptions := fun _ _ _ => answer (inl tt);
     CreateTags := fun _ _ => answer (inl tt);
     DescribeSecurityGroups := fun _ _ => answer groups;
     CreateSecurityGroup := fun _ _ _ => answer (inl "sg-0001");
     AuthorizeSecurityGroupIngress := fun _ _ => answer (inl tt);
     ImportKeyPair := fun _ _ => answer imported;
     DeleteKeyPair := fun _ => answer (inl tt);
     GenerateSSHKey := fun _ => answer None;
     CopyFile := fun _ _ => answer None;
     ReadFile := fun path _ => files path;
     rand_draw := fun w => (1234567, w);
     GetSSHKeyPath := fun d => "/store/machines/" +:+ MachineName d +:+ "/id_rsa";
     EncodeToString := fun s => s;
     Quote := fun s => s;
     Version := "0.16.2";
     MultiError_text := String.concat ", ";
     maxAttempts := 60;
     errRetriesExceeded := errorString "Maximum number of retries (60) exceeded" |}.

Definition instance : ec2.Instance :=
  {| ec2.InstanceId := "i-0a1b2c3d";
     ec2.StateName := "running";
     ec2.KeyName := Some "node-1-JJJJJ";
     ec2.PrivateIpAddress := Some "10.0.0.7";
     ec2.PublicIpAddress := Some "171.33.80.5" |}.

Definition address : ec2.Address :=
  {| ec2.AllocationId := "eipalloc-01"; ec2.PublicIp := "171.33.80.5" |}.

(** Only the public key generated for the host can be read. *)
Definition files (path : string) : result string :=
  if String.eqb path "/store/machines/node-1/id_rsa.pub"
  then inl "ssh-rsa AAAA"
  else failure ("open " +:+ path +:+ ": no such file or directory").

(** A driver as [NewDriver] and the flags leave it before [Create]. *)
Definition driverFor (hostName userData : string)
  (groupNames openPorts : list string) (usePrivateIP : bool) : Driver :=
  {| MachineName := hostName; IPAddress := ""; Region := "us-east-2";
     AMI := "ami-e90bc65c"; ExistingKey := false; KeyName := "";
     InstanceId := ""; InstanceType := "m5.xlarge"; PrivateIPAddress := "";
     SecurityGroupId := ""; SecurityGroupIds := [];
     SecurityGroupName := ""; SecurityGroupNames := groupNames;
     OpenPorts := openPorts; Tags := ""; DeviceName := "/dev/sda1";
     RootSize := 30; VolumeType := "gp2"; IamInstanceProfile := "";
     VpcId := "vpc-1"; SubnetId := "subnet-1"; Zone := "us-east-2a";
     PrivateIPOnly := false; UsePrivateIP := usePrivateIP;
     UseEbsOptimizedInstance := false; SSHPrivateKeyPath := "";
     Endpoint := "https://fcu.us-east-2.outscale.com";
     UserDataFile := userData; bdmList := []; HttpEndpoint := "";
     HttpTokens := ""; AllocationId := ""; PublicIp := "" |}.

Definition fresh : Driver := driverFor "node-1" "" [] [] false.

Definition start (d : Driver) : State unit :=
  {| driver := d; world := tt; requests := [] |}.

(** The driver after a creation that went through. *)
Definition created (d : Driver) : Driver :=
  set_KeyName "node-1-JJJJJ" (set_InstanceId "i-0a1b2c3d" d).

Definition reservations : list ec2.Reservation :=
  [ {| ec2.Instances := [instance] |} ].

(** A world in which everything goes through. *)
Definition calm : Env unit :=
  env (inl reservations) (inl {| ec2.Instances := [instance] |})
      (inl tt) (inl address) (inl []) (inl tt) files.

(** A world that refuses a new address and then refuses to terminate. *)
Definition refusing : Env unit :=
  env (inl reservations) (inl {| ec2.Instances := [instance] |})
      (failure "RequestLimitExceeded: Request limit exceeded.")
      (failure "AddressLimitExceeded: Too many addresses allocated")
      (inl []) (inl tt) files.

(** A world in which the instance is gone. *)
Definition gone : Env unit :=
  env (failure "InvalidInstanceID.NotFound: The instance ID 'i-0a1b2c3d' does not exist")
      (inl {| ec2.Instances := [instance] |})
      (failure "InvalidInstanceID.NotFound: The instance ID 'i-0a1b2c3d' does not exist")
      (inl address) (inl []) (inl tt) files.

(** A world whose describe-instances answer is empty. *)
Definition vacant : Env unit :=
  env (inl []) (inl {| ec2.Instances := [instance] |})
      (inl tt) (inl address) (inl []) (inl tt) files.

(** A world that cannot be reached once the instance runs. *)
Definition unreachable : Env unit :=
  env (failure "RequestError: send request failed")
      (inl {| ec2.Instances := [instance] |})
      (failure "RequestError: send request failed")
      (inl address) (inl []) (inl tt) files.

(** A host whose name has no hyphen, with its instance launched. *)
Definition plainHost : Driver :=
  set_InstanceId "i-0a1b2c3d" (driverFor "node1" "" [] [] false).

(** A host configured with a user-data file that does not exist. *)
Definition userDataHost : Driver :=
  driverFor "node-1" "/etc/userdata.yml" [] [] false.

(** A host that asks for port 8080, written 08080, in its own group. *)
Definition webHost : Driver := driverFor "node-1" "" ["web"] ["08080"] false.

Definition webGroup (perms : list ec2.IpPermission) : ec2.SecurityGroup :=
  {| ec2.GroupId := "sg-0001"; ec2.GroupName := "web"; ec2.VpcId := "vpc-1";
     ec2.IpPermissions := perms; ec2.Tags := [] |}.

(** What the first reconciliation of the empty group asks for. *)
Definition webRules : list ec2.IpPermission :=
  [ openToAll "tcp" 22 22; openToAll "tcp" 2376 2376;
    openToAll "tcp" 8080 8080 ].

(** The world after it: the group holds exactly these rules. *)
Definition provisioned : Env unit :=
  env (inl reservations) (inl {| ec2.Instances := [instance] |})
      (inl tt) (inl address) (inl [webGroup webRules]) (inl tt) files.

End Sample.

(** [c] occurs in [s]. *)
Definition occurs (c : ascii) (s : string) : Prop :=
  exists pre rest, s = pre +:+ String c rest.

Definition hasEbs (bdm : ec2.BlockDeviceMapping) : bool :=
  match ec2.Ebs bdm with Some _ => true | None => false end.

(** [out] is the mapping [src] of the source image as the driver submits
    it: the volume size and type are the configured ones when the device is
    the root device and are the image's otherwise, delete-on-termination is
    set, and the rest is the image's. *)
Definition overridden (d : Driver) (src out : ec2.BlockDeviceMapping) : Prop :=
  ec2.DeviceName out = ec2.DeviceName src /\
  ec2.VirtualName out = ec2.VirtualName src /\
  exists ebs ebs',
    ec2.Ebs src = Some ebs /\ ec2.Ebs out = Some ebs' /\
    ec2.DeleteOnTermination ebs' = Some true /\
    ec2.SnapshotId ebs' = ec2.SnapshotId ebs /\
    (ec2.DeviceName src = DeviceName d ->
     ec2.VolumeSize ebs' = Some (RootSize d) /\
     ec2.VolumeType ebs' = Some (VolumeType d)) /\
    (ec2.DeviceName src <> DeviceName d ->
     ec2.VolumeSize ebs' = ec2.VolumeSize ebs /\
     ec2.VolumeType ebs' = ec2.VolumeType ebs).

(** A relation between the state before and the state after, kept by a
    computation however it ends. *)
Definition preserves {W A} (R : State W -> State W -> Prop) (m : M W A) : Prop :=
  forall st r st', m st = (r, st') -> R st st'.

(** The requests sent in between all satisfy [P]. *)
Definition grows {W} (P : Request -> Prop) (st st' : State W) : Prop :=
  exists l, requests st' = requests st ++ l /\ Forall P l.

(** The driver still has the same [f]. *)
Definition same {W A} (f : Driver -> A) (st st' : State W) : Prop :=
  f (driver st') = f (driver st).

(** Every request a computation sends satisfies [P]. *)
Definition emits {W A} (P : Request -> Prop) (m : M W A) : Prop :=
  preserves (grows P) m.



(** The bytes of a string, and the alphanumeric ones. *)
Definition chars (s : string) : list ascii := list_ascii_of_string s.

Definition isAlnum (c : ascii) : bool :=
  let n := nat_of_ascii c in
  (Nat.leb 97 n && Nat.leb n 122) || (Nat.leb 65 n && Nat.leb n 90) ||
  (Nat.leb 48 n && Nat.leb n 57).

(** ** Reconciliation as a difference

    The rules [configureSecurityGroupPermissions] considers, each with the
    key it is looked up under, and the ones left once those found in the
    map are taken out. *)

Definition missing (hasPortsInbound : gmap string bool)
  (rules : list (string * ec2.IpPermission)) : list ec2.IpPermission :=
  map snd (List.filter (fun c => negb (has hasPortsInbound (fst c))) rules).

Definition builtinRules (group : ec2.SecurityGroup)
  : list (string * ec2.IpPermission) :=
  let gid := ec2.GroupId group in
  [ ("22/tcp", openToAll "tcp" 22 22);
    (FormatInt dockerPort +:+ "/tcp", openToAll "tcp" dockerPort dockerPort) ] ++
  if String.eqb (ec2.GroupName group) defaultSecurityGroup &&
     hasTagKey (ec2.Tags group) machineSecurityGroupName
  then
    [ (FormatInt kubeApiPort +:+ "/tcp", openToAll "tcp" kubeApiPort kubeApiPort);
      (FormatInt (fst etcdPorts) +:+ "/tcp",
       openToGroup "tcp" (fst etcdPorts) (snd etcdPorts) gid);
      (FormatInt (fst vxlanPorts) +:+ "/udp",
       openToGroup "udp" (fst vxlanPorts) (snd vxlanPorts) gid);
      (FormatInt (fst flannelPorts) +:+ "/udp",
       openToGroup "udp" (fst flannelPorts) (snd flannelPorts) gid);
      (FormatInt (fst otherKubePorts) +:+ "/tcp",
       openToGroup "tcp" (fst otherKubePorts) (snd otherKubePorts) gid);
      (FormatInt (fst kubeProxyPorts) +:+ "/tcp",
       openToGroup "tcp" (fst kubeProxyPorts) (snd kubeProxyPorts) gid);
      (FormatInt nodeExporter +:+ "/tcp",
       openToGroup "tcp" nodeExporter nodeExporter gid);
      (FormatInt (fst nodePorts) +:+ "/tcp",
       openToAll "tcp" (fst nodePorts) (snd nodePorts));
      (FormatInt (fst nodePorts) +:+ "/udp",
       openToAll "udp" (fst nodePorts) (snd nodePorts));
      (FormatInt httpPort +:+ "/tcp", openToAll "tcp" httpPort httpPort);
      (FormatInt httpsPort +:+ "/tcp", openToAll "tcp" httpsPort httpsPort);
      (FormatInt calicoPort +:+ "/tcp",
       openToGroup "tcp" calicoPort calicoPort gid) ]
  else [].

Fixpoint openPortRules {W} (E : Env W) (ports : list string)
  : result (list (string * ec2.IpPermission)) :=
  match ports with
  | [] => inl []
  | p :: ports' =>
      let (port, protocol) := driverutil.SplitPortProto p in
      match strconv.ParseInt port with
      | inr err =>
          inr (errorString ("invalid port number " +:+ port +:+ ": " +:+
                            NumError_text E port err))
      | inl portNum =>
          match openPortRules E ports' with
          | inr e => inr e
          | inl rules =>
              inl ((port +:+ "/" +:+ protocol, openToAll protocol portNum portNum)
                   :: rules)
          end
      end
  end.

(** The key under which a permission is recorded once the group holds it. *)
Definition ruleKey (p : ec2.IpPermission) : option string :=
  match ec2.FromPort p with
  | Some fromPort => Some (portKey fromPort (ec2.IpProtocol p))
  | None => None
  end.

(** The group already holds a permission with the key of [p]. *)
Definition recorded (perms : list ec2.IpPermission) (p : ec2.IpPermission) : Prop :=
  exists key, ruleKey p = Some key /\ has (existingPorts perms) key = true.

(** An entry of the open-ports option whose port is written the way [%d]
    prints it. *)
Definition canonicalPort (raw : string) : Prop :=
  exists portNum,
    strconv.ParseInt (fst (driverutil.SplitPortProto raw)) = inl portNum /\
    FormatInt portNum = fst (driverutil.SplitPortProto raw).

Definition withPermissions (group : ec2.SecurityGroup)
  (perms : list ec2.IpPermission) : ec2.SecurityGroup :=
  {| ec2.GroupId := ec2.GroupId group; ec2.GroupName := ec2.GroupName group;
     ec2.VpcId := ec2.VpcId group; ec2.IpPermissions := perms;
     ec2.Tags := ec2.Tags group |}.

(** ** The claims on creation that the code does not meet, as stated *)

(** The error [x] returned to a caller lets it see the error [m]: it is
    [m], or an aggregate that holds [m], or its text quotes the text of
    [m]. *)
Definition carries {W} (E : Env W) (x m : error) : Prop :=
  x = m \/ (exists Errs, x = MultiError Errs /\ In m Errs) \/
  strings.Contains (Error E x) (Error E m) = true.

(** When creation fails and the cleanup fails too, the caller sees both
    errors. *)
Definition Create_reports_cleanup_failure {W} (E : Env W) (st : State W) : Prop :=
  forall e st1 m st2,
    innerCreate E st = (Ret (Some e), st1) ->
    Remove E st1 = (Ret (Some m), st2) ->
    exists x, fst (Create E st) = Ret (Some x) /\ carries E x e /\ carries E x m.

(** An unreadable user-data file fails the creation with the named error
    before any request that changes something was sent. *)
Definition userdata_fails_before_mutation {W} (E : Env W) (st : State W) : Prop :=
  UserDataFile (driver st) <> "" ->
  (forall w, exists ioerr, ReadFile E (UserDataFile (driver st)) w = inr ioerr) ->
  exists st1,
    innerCreate E st = (Ret (Some errorReadingUserData), st1) /\
    Forall (fun rq => isMutation rq = false)
           (drop (length (requests st)) (requests st1)).

(** ** The checks before creation and the queries of the facade

    [PreCreateCheck], [getDefaultVPCId] and [GetURL].  Their requests
    (describe-subnets, describe-images, describe-account-attributes) only
    read the remote world; they step it and are not among the [Request]s
    that the log of creation and teardown keeps. *)

Module ec2pre.

Record Subnet := {
  SubnetId : string;
  VpcId : string;
  DefaultForAz : option bool
}.

Record Image := {
  RootDeviceName : string;
  BlockDeviceMappings : list ec2.BlockDeviceMapping
}.

Record AccountAttribute := {
  AttributeName : string;
  AttributeValues : list string    (* the AttributeValue of each value *)
}.

End ec2pre.

Record Lookups (W : Type) := {
  DescribeSubnets : list ec2.Filter -> W -> result (list ec2pre.Subnet) * W;
  DescribeImages : list string -> W -> result (list ec2pre.Image) * W;
  DescribeAccountAttributes : W -> result (list ec2pre.AccountAttribute) * W
}.
Arguments DescribeSubnets {W}.
Arguments DescribeImages {W}.
Arguments DescribeAccountAttributes {W}.

Definition query {W A} (h : W -> A * W) : M W A := local h.

Definition set_SubnetId (v : string) (d : Driver) : Driver :=
  {|
     MachineName := MachineName d; IPAddress := IPAddress d; Region :=
     Region d; AMI := AMI d; ExistingKey := ExistingKey d; KeyName :=
     KeyName d; InstanceId := InstanceId d; InstanceType := InstanceType
     d; PrivateIPAddress := PrivateIPAddress d; SecurityGroupId :=
     SecurityGroupId d; SecurityGroupIds := SecurityGroupIds d;
     SecurityGroupName := SecurityGroupName d; SecurityGroupNames :=
     SecurityGroupNames d; OpenPorts := OpenPorts d; Tags := Tags d;
     DeviceName := DeviceName d; RootSize := RootSize d; VolumeType :=
     VolumeType d; IamInstanceProfile := IamInstanceProfile d; VpcId :=
     VpcId d; SubnetId := v; Zone := Zone d; PrivateIPOnly :=
     PrivateIPOnly d; UsePrivateIP := UsePrivateIP d;
     UseEbsOptimizedInstance := UseEbsOptimizedInstance d;
     SSHPrivateKeyPath := SSHPrivateKeyPath d; Endpoint := Endpoint d;
     UserDataFile := UserDataFile d; bdmList := bdmList d; HttpEndpoint :=
     HttpEndpoint d; HttpTokens := HttpTokens d; AllocationId :=
     AllocationId d; PublicIp := PublicIp d
  |}.

Definition set_DeviceName (v : string) (d : Driver) : Driver :=
  {|
     MachineName := MachineName d; IPAddress := IPAddress d; Region :=
     Region d; AMI := AMI d; ExistingKey := ExistingKey d; KeyName :=
     KeyName d; InstanceId := InstanceId d; InstanceType := InstanceType
     d; PrivateIPAddress := PrivateIPAddress d; SecurityGroupId :=
     SecurityGroupId d; SecurityGroupIds := SecurityGroupIds d;
     SecurityGroupName := SecurityGroupName d; SecurityGroupNames :=
     SecurityGroupNames d; OpenPorts := OpenPorts d; Tags := Tags d;
     DeviceName := v; RootSize := RootSize d; VolumeType := VolumeType d;
     IamInstanceProfile := IamInstanceProfile d; VpcId := VpcId d;
     SubnetId := SubnetId d; Zone := Zone d; PrivateIPOnly :=
     PrivateIPOnly d; UsePrivateIP := UsePrivateIP d;
     UseEbsOptimizedInstance := UseEbsOptimizedInstance d;
     SSHPrivateKeyPath := SSHPrivateKeyPath d; Endpoint := Endpoint d;
     UserDataFile := UserDataFile d; bdmList := bdmList d; HttpEndpoint :=
     HttpEndpoint d; HttpTokens := HttpTokens d; AllocationId :=
     AllocationId d; PublicIp := PublicIp d
  |}.

(** [drivers.ErrHostIsNotRunning] and [net.JoinHostPort]. *)
Definition ErrHostIsNotRunning : error := errorString "Host is not running".

Definition JoinHostPort (host port : string) : string :=
  if 0 <=? strings.IndexByte host ":"
  then "[" +:+ host +:+ "]:" +:+ port
  else host +:+ ":" +:+ port.

Section Facade.

Context {W : Type}.
Variable E : Env W.
Variable L : Lookups W.

(** The loop of [checkSubnet] that looks for the default subnet of the
    zone and stops at the first one. *)
Fixpoint defaultForAz (subnets : list ec2pre.Subnet) : option string :=
  match subnets with
  | [] => None
  | subnet :: rest =>
      match ec2pre.DefaultForAz subnet with
      | Some true => Some (ec2pre.SubnetId subnet)
      | _ => defaultForAz rest
      end
  end.

Definition checkSubnet : M W (option error) :=
  let* d := get in
  let regionZone := getRegionZone d in
  if String.eqb (SubnetId d) "" then
    let filters :=
      [ {| ec2.Name := "availability-zone"; ec2.Values := [regionZone] |};
        {| ec2.Name := "vpc-id"; ec2.Values := [VpcId d] |} ] in
    let* subnets := query (DescribeSubnets L filters) in
    match subnets with
    | inr err => ret (Some err)
    | inl [] =>
        ret (Some (errorString
                     ("unable to find a subnet in the zone: " +:+ regionZone)))
    | inl (first :: others) =>
        modify (set_SubnetId (ec2pre.SubnetId first)) ;;
        match others with
        | [] => ret tt
        | _ =>
            match defaultForAz (first :: others) with
            | Some id => modify (set_SubnetId id)
            | None => ret tt
            end
        end ;;
        ret None
    end
  else ret None.

Definition checkAMI : M W (option error) :=
  let* d := get in
  let* images := query (DescribeImages L [AMI d]) in
  match images with
  | inr err => ret (Some err)
  | inl [] =>
      ret (Some (errorString
                   ("AMI " +:+ AMI d +:+ " not found on region " +:+
                    getRegionZone d)))
  | inl (image :: _) =>
      (if String.eqb (DeviceName d) ""
       then modify (set_DeviceName (ec2pre.RootDeviceName image))
       else ret tt) ;;
      modify (set_bdmList (ec2pre.BlockDeviceMappings image)) ;;
      ret None
  end.

Definition PreCreateCheck : M W (option error) :=
  let* err := checkSubnet in
  match err with
  | Some e => ret (Some e)
  | None =>
      let* err := checkAMI in
      match err with
      | Some e => ret (Some e)
      | None => ret None
      end
  end.

(** The loop of [getDefaultVPCId] over the account attributes. *)
Fixpoint defaultVpc (attributes : list ec2pre.AccountAttribute)
  : M W (string * option error) :=
  match attributes with
  | [] => ret ("", Some (errorString "No default-vpc attribute"))
  | attribute :: rest =>
      if String.eqb (ec2pre.AttributeName attribute) "default-vpc" then
        match ec2pre.AttributeValues attribute with
        | [] => panic "index out of range [0] with length 0"
        | value :: _ => ret (value, None)
        end
      else defaultVpc rest
  end.

Definition getDefaultVPCId : M W (string * option error) :=
  let* output := query (DescribeAccountAttributes L) in
  match output with
  | inr err => ret ("", Some err)
  | inl attributes => defaultVpc attributes
  end.

(** [drivers.MustBeRunning]. *)
Definition MustBeRunning : M W (option error) :=
  let* r := GetState E in
  match r : state.State * option error with
  | (_, Some err) => ret (Some err)
  | (s, None) =>
      if state.eqb s state.Running then ret None
      else ret (Some ErrHostIsNotRunning)
  end.

Definition GetURL : M W (string * option error) :=
  let* err := MustBeRunning in
  match err with
  | Some e => ret ("", Some e)
  | None =>
      let* r := GetIP E in
      match r : string * option error with
      | (_, Some e) => ret ("", Some e)
      | (ip, None) =>
          if String.eqb ip "" then ret ("", None)
          else ret ("tcp://" +:+ JoinHostPort ip (FormatInt dockerPort), None)
      end
  end.

End Facade.

(** ** Notions for the further properties *)

(** The tag of a key and its value, the tokens of a list of such pairs as
    the tags option spells them, and a token without a comma. *)
Definition toTag (kv : string * string) : ec2.Tag :=
  {| ec2.Key := fst kv; ec2.Value := snd kv |}.

Definition tokensOf (pairs : list (string * string)) : list string :=
  flat_map (fun kv => [fst kv; snd kv]) pairs.

Definition commaFree (s : string) : Prop := ~ occurs "," s.

(** The three tags every instance gets. *)
Definition fixedTags (d : Driver) (clusterName : string) : list ec2.Tag :=
  [ {| ec2.Key := "Name"; ec2.Value := MachineName d |};
    {| ec2.Key := "OscK8sClusterID/" +:+ clusterName; ec2.Value := "owned" |};
    {| ec2.Key := "OscK8sNodeName"; ec2.Value := MachineName d |} ].

(** A describe-instances answer that does not show a running instance:
    an error, or a first instance in another state. *)
Definition notRunning (r : result (list ec2.Reservation)) : Prop :=
  match r with
  | inr _ => True
  | inl (r0 :: _) =>
      match ec2.Instances r0 with
      | i0 :: _ => ec2.StateName i0 <> ec2.InstanceStateNameRunning
      | [] => False
      end
  | inl [] => False
  end.

(** The requests of a teardown. *)
Definition isTeardown (rq : Request) : bool :=
  match rq with
  | TerminateInstancesInput _ | DescribeInstancesInput _
  | DeleteKeyPairInput _ => true
  | _ => false
  end.

Definition isCreateGroup (rq : Request) : bool :=
  match rq with
  | CreateSecurityGroupInput _ _ _ | CreateTagsInput _ _ => true
  | _ => false
  end.

(** The state with another driver, and with another world. *)
Definition withDriver {W} (st : State W) (d : Driver) : State W :=
  {| driver := d; world := world st; requests := requests st |}.

Definition withWorld {W} (st : State W) (w : W) : State W :=
  {| driver := driver st; world := w; requests := requests st |}.




(** ** More concrete worlds *)

Module Cases.

(** A world that shows no instance, launches none and refuses to
    terminate. *)
Definition deserted : Env unit :=
  Sample.env (inl [])
             (Sample.failure "InsufficientInstanceCapacity: Insufficient capacity.")
             (Sample.failure "RequestLimitExceeded: Request limit exceeded.")
             (inl Sample.address) (inl []) (inl tt) Sample.files.

(** A world that refuses to import a key pair. *)
Definition keyless : Env unit :=
  Sample.env (inl Sample.reservations)
             (inl {| ec2.Instances := [Sample.instance] |})
             (inl tt) (inl Sample.address) (inl [])
             (Sample.failure "InvalidKeyPair.Duplicate: The keypair already exists")
             Sample.files.

(** A world that never shows the instance and refuses a new address. *)
Definition stalled : Env unit :=
  Sample.env (Sample.failure "RequestError: send request failed")
             (inl {| ec2.Instances := [Sample.instance] |})
             (inl tt)
             (Sample.failure "AddressLimitExceeded: Too many addresses allocated")
             (inl []) (inl tt) Sample.files.

(** A host set up with its own private key and the name of an existing
    key pair. *)
Definition ownKeyHost : Driver :=
  {| MachineName := "node-1"; IPAddress := ""; Region := "us-east-2";
     AMI := "ami-e90bc65c"; ExistingKey := true; KeyName := "ops-key";
     InstanceId := ""; InstanceType := "m5.xlarge"; PrivateIPAddress := "";
     SecurityGroupId := ""; SecurityGroupIds := [];
     SecurityGroupName := ""; SecurityGroupNames := [];
     OpenPorts := []; Tags := ""; DeviceName := "/dev/sda1";
     RootSize := 30; VolumeType := "gp2"; IamInstanceProfile := "";
     VpcId := "vpc-1"; SubnetId := "subnet-1"; Zone := "us-east-2a";
     PrivateIPOnly := false; UsePrivateIP := false;
     UseEbsOptimizedInstance := false; SSHPrivateKeyPath := "/home/ops/id_rsa";
     Endpoint := "https://fcu.us-east-2.outscale.com";
     UserDataFile := ""; bdmList := []; HttpEndpoint := "";
     HttpTokens := ""; AllocationId := ""; PublicIp := "" |}.

(** A host that asks for port 8080, written as it prints. *)
Definition plainPortHost : Driver :=
  Sample.driverFor "node-1" "" ["web"] ["8080"] false.

Definition webGroups : gmap string ec2.SecurityGroup :=
  {[ "web" := Sample.webGroup Sample.webRules ]}.

(** The answers of the checks before creation. *)
Definition lookups (subnets : list ec2pre.Subnet) (images : list ec2pre.Image)
  (attributes : list ec2pre.AccountAttribute) : Lookups unit :=
  {| DescribeSubnets := fun _ => Sample.answer (inl subnets);
     DescribeImages := fun _ => Sample.answer (inl images);
     DescribeAccountAttributes := Sample.answer (inl attributes) |}.

Definition subnetA : ec2pre.Subnet :=
  {| ec2pre.SubnetId := "subnet-a"; ec2pre.VpcId := "vpc-1";
     ec2pre.DefaultForAz := Some false |}.

Definition subnetB : ec2pre.Subnet :=
  {| ec2pre.SubnetId := "subnet-b"; ec2pre.VpcId := "vpc-1";
     ec2pre.DefaultForAz := Some true |}.

Definition volume (size : Z) : ec2.EbsBlockDevice :=
  {| ec2.SnapshotId := Some "snap-1"; ec2.VolumeSize := Some size;
     ec2.VolumeType := Some "standard"; ec2.DeleteOnTermination := Some false |}.

Definition rootMapping : ec2.BlockDeviceMapping :=
  {| ec2.DeviceName := "/dev/sda1"; ec2.VirtualName := None;
     ec2.Ebs := Some (volume 10) |}.

Definition dataMapping : ec2.BlockDeviceMapping :=
  {| ec2.DeviceName := "/dev/sdb"; ec2.VirtualName := None;
     ec2.Ebs := Some (volume 100) |}.

Definition image : ec2pre.Image :=
  {| ec2pre.RootDeviceName := "/dev/sda1";
     ec2pre.BlockDeviceMappings := [rootMapping; dataMapping] |}.

Definition attributes : list ec2pre.AccountAttribute :=
  [ {| ec2pre.AttributeName := "max-instances";
       ec2pre.AttributeValues := ["20"] |};
    {| ec2pre.AttributeName := "default-vpc";
       ec2pre.AttributeValues := ["vpc-9"] |} ].

Definition checks : Lookups unit := lookups [subnetA; subnetB] [image] attributes.

End Cases.

(** ** Proofs *)

Ltac run := unfold bind, get, ret, call, local, read, modify, panic; simpl.

Section Preserves.

Context {W : Type}.
Variable R : State W -> State W -> Prop.
Context `{!Reflexive R, !Transitive R}.

Lemma preserves_ret {A} (a : A) : preserves R (ret a : M W A).
Proof. intros st r st' [= <- <-]. reflexivity. Qed.

Lemma preserves_panic {A} msg : preserves R (panic msg : M W A).
Proof. intros st r st' [= <- <-]. reflexivity. Qed.

Lemma preserves_get : preserves R (get : M W Driver).
Proof. intros st r st' [= <- <-]. reflexivity. Qed.

Lemma preserves_read {A} (h : W -> A) : preserves R (read h).
Proof. intros st r st' [= <- <-]. reflexivity. Qed.

Lemma preserves_modify f :
  (forall st, R st {| driver := f (driver st); world := world st;
                      requests := requests st |}) ->
  preserves R (modify f : M W unit).
Proof. intros H st r st' [= <- <-]. apply H. Qed.

Lemma preserves_local {A} (h : W -> A * W) :
  (forall st w, R st {| driver := driver st; world := w;
                        requests := requests st |}) ->
  preserves R (local h).
Proof.
  intros H st r st'. unfold local. destruct (h (world st)) as [a w].
  intros [= <- <-]. apply H.
Qed.

Lemma preserves_call {A} rq (h : W -> A * W) :
  (forall st w, R st (sent st rq w)) -> preserves R (call rq h).
Proof.
  intros H st r st'. unfold call. destruct (h (world st)) as [a w].
  intros [= <- <-]. apply H.
Qed.

Lemma preserves_bind {A B} (m : M W A) (k : A -> M W B) :
  preserves R m -> (forall a, preserves R (k a)) -> preserves R (bind m k).
Proof.
  intros Hm Hk st r st'. unfold bind.
  destruct (m st) as [[a | msg] st1] eqn:Hrun.
  - intros Hrest. transitivity st1; [exact (Hm _ _ _ Hrun) |].
    exact (Hk a _ _ _ Hrest).
  - intros [= <- <-]. exact (Hm _ _ _ Hrun).
Qed.

End Preserves.

#[local] Instance grows_refl {W} P : Reflexive (@grows W P).
Proof. intros st. exists []. rewrite app_nil_r. auto. Qed.

#[local] Instance grows_trans {W} P : Transitive (@grows W P).
Proof.
  intros a b c (l1 & H1 & F1) (l2 & H2 & F2). exists (l1 ++ l2). split.
  - rewrite H2, H1, app_assoc. reflexivity.
  - apply Forall_app; auto.
Qed.

#[local] Instance same_refl {W A} (f : Driver -> A) : Reflexive (@same W A f).
Proof. intros st. reflexivity. Qed.

#[local] Instance same_trans {W A} (f : Driver -> A) : Transitive (@same W A f).
Proof. intros a b c H1 H2. unfold same in *. congruence. Qed.

Lemma grows_sent {W} (P : Request -> Prop) (st : State W) rq w :
  P rq -> grows P st (sent st rq w).
Proof. intros H. exists [rq]. simpl. auto. Qed.

Lemma grows_quiet {W} (P : Request -> Prop) (st : State W) d w :
  grows P st {| driver := d; world := w; requests := requests st |}.
Proof. exists []. simpl. rewrite app_nil_r. auto. Qed.

(** One step through the structure of a computation; the side conditions
    are about a single request or a single assignment. *)
Ltac frame_side :=
  intros;
  first [ apply grows_quiet
        | apply grows_sent; simpl; solve [reflexivity | exact I | auto]
        | reflexivity ].

Ltac by_instance := try solve [apply _].

Ltac frame_step :=
  match goal with
  | |- preserves _ (ret _) => apply preserves_ret; by_instance
  | |- preserves _ (panic _) => apply preserves_panic; by_instance
  | |- preserves _ get => apply preserves_get; by_instance
  | |- preserves _ (read _) => apply preserves_read; by_instance
  | |- preserves _ (modify _) => apply preserves_modify; by_instance; frame_side
  | |- preserves _ (local _) => apply preserves_local; by_instance; frame_side
  | |- preserves _ (call _ _) => apply preserves_call; by_instance; frame_side
  | |- preserves _ (bind _ _) => apply preserves_bind; by_instance; [| intros ?]
  | |- preserves _ (match ?x with _ => _ end) => destruct x
  | |- preserves _ (if ?b then _ else _) => destruct b
  end.

Ltac frame := unfold emits; repeat frame_step.

Section Teardown.

Context {W : Type}.
Variable E : Env W.

(** C4.  [terminate] succeeds without sending anything when no instance
    id was recorded; otherwise it sends one TerminateInstances request
    and succeeds when the request does or when its failure reads as
    "unknown instance" or "InvalidInstanceID.NotFound"; any other failure
    of the request is returned, wrapped. *)
Theorem terminate_gone_is_success (st : State W) :
  let d := driver st in
  let rq := TerminateInstancesInput [InstanceId d] in
  (InstanceId d = "" -> terminate E st = (Ret None, st)) /\
  (InstanceId d <> "" ->
   forall r w, TerminateInstances E [InstanceId d] (world st) = (r, w) ->
     terminate E st =
     (Ret match r with
          | inl _ => None
          | inr err =>
              if notFound (Error E err) then None
              else Some (errorString
                           ("unable to terminate instance: " +:+ Error E err))
          end,
      sent st rq w)).
Proof.
  intros d rq; subst d rq; split.
  - intros Hid. unfold terminate. run. rewrite Hid. reflexivity.
  - intros Hid r w Hcall. unfold terminate. run.
    apply String.eqb_neq in Hid. rewrite Hid, Hcall.
    unfold sent, notFound.
    destruct r as [u | err]; [reflexivity |].
    destruct (strings.HasPrefix (Error E err) "unknown instance" ||
              strings.HasPrefix (Error E err) "InvalidInstanceID.NotFound");
      reflexivity.
Qed.


Lemma getInstance_emits P :
  (forall ids, P (DescribeInstancesInput ids)) -> emits P (getInstance E).
Proof. intros HP. unfold getInstance. frame. Qed.


End Teardown.


Section Queries.

Context {W : Type}.
Variable E : Env W.

Lemma getInstance_driver (st st' : State W) r :
  getInstance E st = (r, st') -> driver st' = driver st.
Proof.
  unfold getInstance. run.
  destruct (DescribeInstances E _ (world st)) as [[rs | err] w]; simpl.
  - destruct rs as [| r0 rs]; [intros [= <- <-]; reflexivity |].
    destruct (ec2.Instances r0); intros [= <- <-]; reflexivity.
  - intros [= <- <-]; reflexivity.
Qed.

(** C6.  When the instance can be queried, [GetIP] answers with the private
    address as soon as one of the flags PrivateIPOnly and UsePrivateIP is
    set, whatever the public address is, and with the public address
    otherwise; when the address so selected is absent it returns the error
    "No private IP for instance ..." or "No IP for instance ...". *)
Theorem GetIP_policy (st st' : State W) (inst : ec2.Instance) :
  getInstance E st = (Ret (inl inst), st') ->
  GetIP E st =
  (Ret (if PrivateIPOnly (driver st) || UsePrivateIP (driver st) then
          match ec2.PrivateIpAddress inst with
          | Some ip => (ip, None)
          | None => ("", Some (errorString
                       ("No private IP for instance " +:+ ec2.InstanceId inst)))
          end
        else
          match ec2.PublicIpAddress inst with
          | Some ip => (ip, None)
          | None => ("", Some (errorString
                       ("No IP for instance " +:+ ec2.InstanceId inst)))
          end),
   st').
Proof.
  intros Hget. pose proof (getInstance_driver _ _ _ Hget) as Hd.
  unfold GetIP, bind. rewrite Hget. run. rewrite Hd.
  destruct (PrivateIPOnly (driver st)), (UsePrivateIP (driver st)); simpl;
    try destruct (ec2.PrivateIpAddress inst);
    try destruct (ec2.PublicIpAddress inst); reflexivity.
Qed.

Lemma getInstance_run (st : State W) :
  getInstance E st =
  let rq := DescribeInstancesInput [InstanceId (driver st)] in
  match DescribeInstances E [InstanceId (driver st)] (world st) with
  | (inr err, w) => (Ret (inr err), sent st rq w)
  | (inl [], w) => (Panic "index out of range [0] with length 0", sent st rq w)
  | (inl (r0 :: _), w) =>
      match ec2.Instances r0 with
      | [] => (Panic "index out of range [0] with length 0", sent st rq w)
      | i0 :: _ => (Ret (inl i0), sent st rq w)
      end
  end.
Proof.
  unfold getInstance. run.
  destruct (DescribeInstances E _ (world st)) as [[rs | err] w]; simpl;
    [| reflexivity].
  destruct rs as [| r0 rs]; [reflexivity |].
  destruct (ec2.Instances r0); reflexivity.
Qed.

Lemma getInstance_panics_on (st : State W) msg st' :
  getInstance E st = (Panic msg, st') ->
  GetIP E st = (Panic msg, st') /\ GetState E st = (Panic msg, st') /\
  (KeyName (driver st) <> "" -> deleteKeyPair E st = (Panic msg, st')).
Proof.
  intros H. unfold GetIP, GetState, deleteKeyPair, bind at 1.
  repeat split.
  - unfold bind. rewrite H. reflexivity.
  - unfold bind. rewrite H. reflexivity.
  - intros Hk. apply String.eqb_neq in Hk. unfold bind, get. simpl.
    rewrite Hk, H. reflexivity.
Qed.

Lemma getInstance_returns_of (st : State W) :
  returns (GetIP E st) \/ returns (GetState E st) \/
  (KeyName (driver st) <> "" /\ returns (deleteKeyPair E st)) ->
  returns (getInstance E st).
Proof.
  destruct (getInstance E st) as [[a | msg] st'] eqn:Hg.
  - intros _. exists a. reflexivity.
  - destruct (getInstance_panics_on _ _ _ Hg) as (H1 & H2 & H3).
    intros [[a Ha] | [[a Ha] | [Hk [a Ha]]]].
    + rewrite H1 in Ha. discriminate.
    + rewrite H2 in Ha. discriminate.
    + rewrite (H3 Hk) in Ha. discriminate.
Qed.

(** C10.  On a successful describe-instances answer [getInstance] returns
    the first instance of the first reservation and tests nothing: with no
    reservation, or a first reservation without instance, it panics, and so
    do [GetIP], [GetState] and (once a key name is recorded) [deleteKeyPair];
    so none of them returns unless the answer holds a reservation with an
    instance. *)
Theorem getInstance_first_of_first
  (st : State W) (Reservations : list ec2.Reservation) (w : W) :
  DescribeInstances E [InstanceId (driver st)] (world st) = (inl Reservations, w) ->
  let st' := sent st (DescribeInstancesInput [InstanceId (driver st)]) w in
  (forall r0 rs i0 others,
      Reservations = r0 :: rs -> ec2.Instances r0 = i0 :: others ->
      getInstance E st = (Ret (inl i0), st')) /\
  (Reservations = [] \/
   (exists r0 rs, Reservations = r0 :: rs /\ ec2.Instances r0 = []) ->
   panics (getInstance E st) /\ panics (GetIP E st) /\ panics (GetState E st) /\
   (KeyName (driver st) <> "" -> panics (deleteKeyPair E st))) /\
  (returns (getInstance E st) \/ returns (GetIP E st) \/
   returns (GetState E st) \/
   (KeyName (driver st) <> "" /\ returns (deleteKeyPair E st)) ->
   exists r, In r Reservations /\ ec2.Instances r <> []).
Proof.
  intros Hd st'. pose proof (getInstance_run st) as Hrun.
  rewrite Hd in Hrun. simpl in Hrun. fold st' in Hrun.
  split; [| split].
  - intros r0 rs i0 others -> Hi. rewrite Hrun, Hi. reflexivity.
  - intros Hempty.
    assert (exists msg, getInstance E st = (Panic msg, st')) as [msg Hp].
    { destruct Hempty as [-> | (r0 & rs & -> & Hi)].
      - eexists. exact Hrun.
      - rewrite Hi in Hrun. eexists. exact Hrun. }
    destruct (getInstance_panics_on _ _ _ Hp) as (H1 & H2 & H3).
    repeat split.
    + exists msg. rewrite Hp. reflexivity.
    + exists msg. rewrite H1. reflexivity.
    + exists msg. rewrite H2. reflexivity.
    + intros Hk. exists msg. rewrite (H3 Hk). reflexivity.
  - intros Hret.
    assert (returns (getInstance E st)) as [a Ha].
    { destruct Hret as [H | H]; [exact H |].
      apply getInstance_returns_of. exact H. }
    rewrite Hrun in Ha.
    destruct Reservations as [| r0 rs]; [discriminate |].
    exists r0. split; [left; reflexivity |].
    intros Hnil. rewrite Hnil in Ha. discriminate.
Qed.

End Queries.


Section BlockDevices.

Context {W : Type}.
Variable E : Env W.

Lemma collect_ebs (l acc : list ec2.BlockDeviceMapping) :
  foldl (fun bdmList bdm =>
           match ec2.Ebs bdm with
           | Some _ => bdmList ++ [bdm]
           | None => bdmList
           end) acc l
  = acc ++ List.filter hasEbs l.
Proof.
  revert acc. induction l as [| b l IH]; intros acc; simpl.
  - rewrite app_nil_r. reflexivity.
  - rewrite IH. unfold hasEbs. destruct (ec2.Ebs b); [| reflexivity].
    rewrite <- app_assoc. reflexivity.
Qed.

Lemma updateBDM_hasEbs d b : hasEbs (updateBDM d b) = hasEbs b.
Proof.
  unfold updateBDM, hasEbs.
  destruct (ec2.Ebs b) eqn:H; simpl; rewrite ?H; reflexivity.
Qed.

Lemma updateBDM_overridden d b :
  hasEbs b = true -> overridden d b (updateBDM d b).
Proof.
  unfold hasEbs, updateBDM, overridden.
  destruct (ec2.Ebs b) as [ebs |] eqn:Hebs; [intros _ | discriminate].
  simpl. split; [reflexivity |]. split; [reflexivity |].
  exists ebs. eexists. split; [reflexivity |]. split; [reflexivity |].
  simpl. split; [reflexivity |].
  destruct (String.eqb_spec (ec2.DeviceName b) (DeviceName d)) as [Heq | Hne];
    simpl; (split; [reflexivity |]); split; intros H;
    try contradiction; split; reflexivity.
Qed.

Lemma filter_map_updateBDM d l :
  Forall2 (overridden d) (List.filter hasEbs l)
          (List.filter hasEbs (map (updateBDM d) l)).
Proof.
  induction l as [| b l IH]; simpl; [constructor |].
  rewrite updateBDM_hasEbs. destruct (hasEbs b) eqn:Hb; [| exact IH].
  constructor; [apply updateBDM_overridden; exact Hb | exact IH].
Qed.

(** C9.  [updateBDMList] returns, in order, the mappings of the source image
    that have an Ebs part; the entry whose device name is the configured
    root device name, and no other, gets the configured volume size and
    type, and every returned entry has delete-on-termination true. *)
Theorem updateBDMList_overrides_root_only (st : State W) :
  exists out st',
    updateBDMList st = (Ret out, st') /\
    Forall2 (overridden (driver st))
            (List.filter hasEbs (bdmList (driver st))) out /\
    Forall (fun bdm => exists ebs, ec2.Ebs bdm = Some ebs /\
                         ec2.DeleteOnTermination ebs = Some true) out.
Proof.
  unfold updateBDMList. run.
  eexists. eexists. split; [reflexivity |].
  rewrite collect_ebs. simpl.
  pose proof (filter_map_updateBDM (driver st) (bdmList (driver st))) as H.
  split; [exact H |].
  induction H as [| src out l l' Hov _ IH]; constructor; [| exact IH].
  destruct Hov as (_ & _ & ebs & ebs' & _ & Hout & Hdel & _).
  exists ebs'. split; assumption.
Qed.

End BlockDevices.

Section Tagging.

Context {W : Type}.
Variable E : Env W.

Lemma IndexByte_ge s c : -1 <= strings.IndexByte s c.
Proof.
  induction s as [| a s IH]; simpl; [lia |].
  destruct (Ascii.eqb a c); [lia |].
  destruct (strings.IndexByte s c <? 0) eqn:H; [lia |].
  apply Z.ltb_ge in H. lia.
Qed.

Lemma IndexByte_absent s c : ~ occurs c s -> strings.IndexByte s c = -1.
Proof.
  induction s as [| a s IH]; simpl; [reflexivity |]. intros Hno.
  destruct (Ascii.eqb_spec a c) as [-> | Hne].
  - exfalso. apply Hno. exists "", s. reflexivity.
  - rewrite IH; [reflexivity |].
    intros (pre & rest & ->). apply Hno. exists (String a pre), rest. reflexivity.
Qed.

Lemma append_cons a s t : String a s +:+ t = String a (s +:+ t).
Proof. reflexivity. Qed.

Lemma append_nil t : "" +:+ t = t.
Proof. reflexivity. Qed.

Lemma IndexByte_first pre rest c :
  ~ occurs c pre ->
  strings.IndexByte (pre +:+ String c rest) c = Z.of_nat (String.length pre).
Proof.
  induction pre as [| a pre IH]; intros Hno.
  - rewrite append_nil. simpl. rewrite Ascii.eqb_refl. reflexivity.
  - rewrite append_cons. cbn [strings.IndexByte String.length].
    rewrite Nat2Z.inj_succ.
    destruct (Ascii.eqb_spec a c) as [-> | Hne].
    + exfalso. apply Hno. exists "", pre. reflexivity.
    + rewrite IH.
      * destruct (Z.of_nat (String.length pre) <? 0) eqn:H; [| lia].
        apply Z.ltb_lt in H. lia.
      * intros (p & r & ->). apply Hno. exists (String a p), r. reflexivity.
Qed.

Lemma substring_prefix pre s :
  String.substring 0 (String.length pre) (pre +:+ s) = pre.
Proof.
  induction pre as [| a pre IH].
  - rewrite append_nil. destruct s; reflexivity.
  - rewrite append_cons. simpl. rewrite IH. reflexivity.
Qed.

Lemma length_app_string a b :
  String.length (a +:+ b) = (String.length a + String.length b)%nat.
Proof.
  induction a as [| c a IH]; [reflexivity |].
  rewrite append_cons. simpl. rewrite IH. reflexivity.
Qed.

Lemma slice_before_first pre rest c :
  ~ occurs c pre ->
  let s := pre +:+ String c rest in
  slice_to s (strings.IndexByte s c) = Some pre.
Proof.
  intros Hno s. subst s. rewrite IndexByte_first by exact Hno.
  unfold slice_to. rewrite length_app_string, Nat2Z.id, substring_prefix.
  replace (0 <=? Z.of_nat (String.length pre)) with true
    by (symmetry; apply Z.leb_le; lia).
  replace (Z.of_nat (String.length pre) <=?
           Z.of_nat (String.length pre + String.length (String c rest)))
    with true by (symmetry; apply Z.leb_le; lia).
  reflexivity.
Qed.

(** The tags [configureTags] builds for a cluster identifier. *)
Lemma configureTags_with_separator (tagGroups : string) (st : State W) pre rest :
  MachineName (driver st) = pre +:+ String "-" rest ->
  ~ occurs "-" pre ->
  let d := driver st in
  let tags :=
    [ {| ec2.Key := "Name"; ec2.Value := MachineName d |};
      {| ec2.Key := "OscK8sClusterID/" +:+ pre; ec2.Value := "owned" |};
      {| ec2.Key := "OscK8sNodeName"; ec2.Value := MachineName d |} ] ++
    (if String.eqb tagGroups "" then []
     else tagPairs (strings.Split tagGroups ",")) in
  forall r w, CreateTags E [InstanceId d] tags (world st) = (r, w) ->
    configureTags E tagGroups st =
    (Ret match r with inr err => Some err | inl _ => None end,
     sent st (CreateTagsInput [InstanceId d] tags) w).
Proof.
  intros Hname Hno d tags r w Hcall. subst d tags.
  assert (slice_to (MachineName (driver st))
            (strings.IndexByte (MachineName (driver st)) "-") = Some pre) as Hs.
  { rewrite Hname. apply slice_before_first. exact Hno. }
  unfold configureTags. run. rewrite Hs. unfold bind, call. simpl.
  destruct (String.eqb tagGroups ""); simpl in *.
  - rewrite Hcall. destruct r; reflexivity.
  - rewrite Hcall. destruct r; reflexivity.
Qed.

(** X20.  A host name without a hyphen makes the index -1 and the slice
    expression [d.MachineName[:-1]] panic: [configureTags] does not
    complete and sends no request. *)
Lemma configureTags_no_separator_panics (tagGroups : string) (st : State W) :
  ~ occurs "-" (MachineName (driver st)) ->
  configureTags E tagGroups st = (Panic "slice bounds out of range", st).
Proof.
  intros Hno. unfold configureTags. run.
  rewrite (IndexByte_absent _ _ Hno). reflexivity.
Qed.

End Tagging.


Section KeyPair.

Context {W : Type}.
Variable E : Env W.

Lemma get_In (s : string) (n : nat) (c : ascii) :
  String.get n s = Some c -> In c (chars s).
Proof.
  revert n. induction s as [| a s IH]; intros n; simpl; [discriminate |].
  destruct n as [| n].
  - intros [= ->]. left. reflexivity.
  - intros H. right. exact (IH n H).
Qed.

Lemma get_lt (s : string) (n : nat) :
  (n < String.length s)%nat -> exists c, String.get n s = Some c.
Proof.
  revert n. induction s as [| a s IH]; intros n; simpl; [lia |].
  destruct n as [| n]; [eauto |]. intros H. apply IH. lia.
Qed.

Lemma charset_alnum : forallb isAlnum (chars charset) = true.
Proof. reflexivity. Qed.

Lemma charset_draw (x : Z) :
  exists c, byte_at charset (x mod Z.of_nat (String.length charset)) = Some c /\
            In c (chars charset) /\ isAlnum c = true.
Proof.
  assert (0 <= x mod Z.of_nat (String.length charset) <
          Z.of_nat (String.length charset)) as Hb
    by (apply Z.mod_pos_bound; simpl; lia).
  unfold byte_at.
  replace (0 <=? x mod Z.of_nat (String.length charset)) with true
    by (symmetry; apply Z.leb_le; lia).
  destruct (get_lt charset (Z.to_nat (x mod Z.of_nat (String.length charset))))
    as [c Hc]; [lia |].
  exists c. split; [exact Hc |].
  pose proof (get_In _ _ _ Hc) as Hin. split; [exact Hin |].
  pose proof charset_alnum as Hall. rewrite forallb_forall in Hall. auto.
Qed.

(** The loop that draws the suffix always completes; it touches neither the
    driver nor the client. *)
Lemma randomBytes_spec (n : nat) (st : State W) :
  exists suffix st',
    randomBytes E n st = (Ret suffix, st') /\
    String.length suffix = n /\
    Forall (fun c => In c (chars charset) /\ isAlnum c = true) (chars suffix) /\
    driver st' = driver st /\ requests st' = requests st.
Proof.
  revert st. induction n as [| n IH]; intros st.
  - exists "", st. simpl. repeat split. constructor.
  - cbn [randomBytes]. unfold bind at 1. unfold local.
    destruct (rand_draw E (world st)) as [x w] eqn:Hx.
    destruct (charset_draw x) as (c & Hc & Hin & Hal). rewrite Hc.
    unfold bind.
    destruct (IH {| driver := driver st; world := w; requests := requests st |})
      as (rest & st' & Hrun & Hlen & Hall & Hd & Hr).
    rewrite Hrun. exists (String c rest), st'. unfold ret. simpl.
    repeat split; auto.
Qed.

Lemma resolveKeyPath_frame (st st' : State W) r :
  resolveKeyPath E st = (r, st') ->
  driver st' = driver st /\ requests st' = requests st.
Proof.
  unfold resolveKeyPath. run.
  destruct (String.eqb (SSHPrivateKeyPath (driver st)) "").
  - destruct (GenerateSSHKey E _ (world st)) as [[e |] w]; simpl;
      intros [= <- <-]; auto.
  - destruct (CopyFile E _ _ (world st)) as [[e |] w]; simpl;
      [intros [= <- <-]; auto |].
    destruct (negb (String.eqb (KeyName (driver st)) ""));
      [intros [= <- <-]; auto |].
    match goal with
    | |- context [CopyFile E ?a ?b ?x] =>
        destruct (CopyFile E a b x) as [[e |] w']; simpl; intros [= <- <-]; auto
    end.
Qed.



End KeyPair.

Section Creation.

Context {W : Type}.
Variable E : Env W.

Lemma randomBytes_emits P n : emits P (randomBytes E n).
Proof. induction n as [| n IH]; simpl; frame. exact IH. Qed.

Lemma createKeyPair_emits P :
  (forall name key, P (ImportKeyPairInput name key)) -> emits P (createKeyPair E).
Proof.
  intros HP. unfold createKeyPair, resolveKeyPath. frame.
  all: try apply randomBytes_emits.
Qed.

Lemma WaitForSpecific_emits P f n :
  emits P f -> emits P (WaitForSpecific E f n).
Proof. intros Hf. induction n as [| n IH]; simpl; frame; assumption. Qed.

Lemma configureSecurityGroups_emits P names :
  (forall rq, isRunInstances rq = false -> P rq) ->
  emits P (configureSecurityGroups E names).
Proof.
  intros HP.
  assert (forall byName l, emits P (configureEach E byName l)) as Heach.
  { intros byName l. induction l as [| name l IH]; simpl; frame;
      try exact IH.
    unfold configureSecurityGroup, createGroup, WaitFor. frame.
    all: try (apply WaitForSpecific_emits;
              unfold securityGroupAvailableFunc; frame). }
  unfold configureSecurityGroups. destruct names; frame. apply Heach.
Qed.

(** C1, as the code has it.  When [innerCreate] returns an error, [Create]
    runs [Remove] on the state [innerCreate] left and ends in the state
    [Remove] left.  When [Remove] returns, [Create] returns that same
    error and what [Remove] returned, nil or the aggregate of its
    failures, is dropped.  When [Remove] panics, so does [Create], and the
    error of the creation is not returned. *)
Theorem Create_failure_runs_Remove (st st1 : State W) (e : error) :
  innerCreate E st = (Ret (Some e), st1) ->
  Create E st =
  (match fst (Remove E st1) with
   | Ret cleanup => Ret (Some e)
   | Panic msg => Panic msg
   end,
   snd (Remove E st1)).
Proof.
  intros Hinner.
  unfold Create, bind at 1. rewrite Hinner.
  unfold bind. destruct (Remove E st1) as [[cleanup | msg] st2]; reflexivity.
Qed.

(** C3, as the code has it.  When the key pair and the security groups went
    through and the configured user-data file cannot be read, [innerCreate]
    returns [errorReadingUserData], whatever the I/O error was, in the state
    the security-group step left: nothing more was sent, and no
    RunInstances request was sent at all. *)
Theorem innerCreate_unreadable_userdata (st st1 st2 : State W) (ioerr : error) :
  createKeyPair E st = (Ret None, st1) ->
  configureSecurityGroups E (securityGroupNames (driver st1)) st1 = (Ret None, st2) ->
  UserDataFile (driver st2) <> "" ->
  ReadFile E (UserDataFile (driver st2)) (world st2) = inr ioerr ->
  innerCreate E st = (Ret (Some errorReadingUserData), st2) /\
  Forall (fun rq => isRunInstances rq = false)
         (drop (length (requests st)) (requests st2)).
Proof.
  intros Hkey Hgroups Hfile Hread. split.
  - unfold innerCreate, bind at 1. rewrite Hkey.
    unfold bind at 1. unfold get at 1.
    unfold bind at 1. rewrite Hgroups.
    unfold bind at 1. unfold Base64UserData. run.
    apply String.eqb_neq in Hfile. rewrite Hfile. simpl. rewrite Hread. reflexivity.
  - destruct (createKeyPair_emits (fun rq => isRunInstances rq = false)
                ltac:(reflexivity) _ _ _ Hkey) as (l1 & H1 & F1).
    destruct (configureSecurityGroups_emits (fun rq => isRunInstances rq = false)
                _ ltac:(auto) _ _ _ Hgroups) as (l2 & H2 & F2).
    rewrite H2, H1, <- app_assoc, drop_app_length.
    apply Forall_app; auto.
Qed.

End Creation.

Section Reconciliation.

Context {W : Type}.
Variable E : Env W.

Lemma missing_app h a b : missing h (a ++ b) = missing h a ++ missing h b.
Proof. unfold missing. rewrite List.filter_app, List.map_app. reflexivity. Qed.

Lemma missing_cons h c l : missing h (c :: l) = missing h [c] ++ missing h l.
Proof. exact (missing_app h [c] l). Qed.

Lemma addMissing_missing h key p l :
  addMissing h key p l = l ++ missing h [(key, p)].
Proof.
  unfold addMissing, missing. simpl.
  destruct (has h key); simpl; [rewrite app_nil_r |]; reflexivity.
Qed.

Lemma openPortPerms_missing h ports acc :
  openPortPerms E h ports acc =
  match openPortRules E ports with
  | inr e => inr e
  | inl rules => inl (acc ++ missing h rules)
  end.
Proof.
  revert acc. induction ports as [| p ports IH]; intros acc; simpl.
  - unfold missing. simpl. rewrite app_nil_r. reflexivity.
  - destruct (driverutil.SplitPortProto p) as [port protocol].
    destruct (strconv.ParseInt port) as [portNum | err]; [| reflexivity].
    rewrite IH. destruct (openPortRules E ports) as [rules | e]; [| reflexivity].
    rewrite addMissing_missing, (missing_cons h _ rules), app_assoc.
    reflexivity.
Qed.

Lemma fold_addMissing h rules acc :
  fold_left (fun acc c => addMissing h (fst c) (snd c) acc) rules acc
  = acc ++ missing h rules.
Proof.
  revert acc. induction rules as [| c rules IH]; intros acc; simpl.
  - unfold missing. simpl. rewrite app_nil_r. reflexivity.
  - rewrite IH, addMissing_missing, (missing_cons h c rules), app_assoc.
    destruct c. reflexivity.
Qed.

(** The sequence of tests of the source computes this difference. *)
Lemma configureSecurityGroupPermissions_missing d group :
  configureSecurityGroupPermissions E d group =
  match openPortRules E (OpenPorts d) with
  | inr e => inr e
  | inl rules =>
      inl (missing (existingPorts (ec2.IpPermissions group))
                   (builtinRules group ++ rules))
  end.
Proof.
  unfold configureSecurityGroupPermissions. rewrite openPortPerms_missing.
  destruct (openPortRules E (OpenPorts d)) as [rules | e]; [| reflexivity].
  f_equal. rewrite missing_app. f_equal.
  rewrite <- (app_nil_l (missing _ (builtinRules group))), <- fold_addMissing.
  unfold builtinRules.
  destruct (String.eqb (ec2.GroupName group) defaultSecurityGroup &&
            hasTagKey (ec2.Tags group) machineSecurityGroupName);
    cbn [app fold_left fst snd]; reflexivity.
Qed.

Lemma has_empty key : has ∅ key = false.
Proof. unfold has. rewrite lookup_empty. reflexivity. Qed.

Lemma has_insert (m : gmap string bool) key key' :
  has (<[key' := true]> m) key = true <-> key' = key \/ has m key = true.
Proof.
  unfold has. rewrite lookup_insert. destruct (decide (key' = key)); simpl.
  - split; auto.
  - split; [auto | intros [? | ?]; [contradiction | assumption]].
Qed.

Lemma has_recorded_from m perms key :
  has (foldl (fun hasPortsInbound p =>
                match ec2.FromPort p with
                | Some fromPort =>
                    <[portKey fromPort (ec2.IpProtocol p) := true]> hasPortsInbound
                | None => hasPortsInbound
                end) m perms) key = true <->
  has m key = true \/ exists q, In q perms /\ ruleKey q = Some key.
Proof.
  revert m. induction perms as [| p perms IH]; intros m; simpl.
  - split; [auto | intros [H | (q & [] & _)]; exact H].
  - rewrite IH. unfold ruleKey at 2.
    destruct (ec2.FromPort p) as [fromPort |] eqn:Hp.
    + rewrite has_insert. split.
      * intros [[Hk | Hm] | (q & Hq & Hkey)]; eauto.
        right. exists p. split; [auto |]. unfold ruleKey. rewrite Hp, Hk.
        reflexivity.
      * intros [Hm | (q & [<- | Hq] & Hkey)]; eauto.
        left. left. unfold ruleKey in Hkey. rewrite Hp in Hkey.
        injection Hkey as Hkey. exact Hkey.
    + split.
      * intros [Hm | (q & Hq & Hkey)]; eauto.
      * intros [Hm | (q & [<- | Hq] & Hkey)]; eauto.
        unfold ruleKey in Hkey. rewrite Hp in Hkey. discriminate.
Qed.

(** X17.  The map of the source records exactly the keys of the permissions the
    group holds. *)
Lemma existingPorts_spec perms key :
  has (existingPorts perms) key = true <->
  exists q, In q perms /\ ruleKey q = Some key.
Proof.
  unfold existingPorts. rewrite has_recorded_from, has_empty.
  split; [intros [H | H]; [discriminate | exact H] | auto].
Qed.

Lemma builtinRules_keys group :
  Forall (fun c => ruleKey (snd c) = Some (fst c)) (builtinRules group).
Proof.
  unfold builtinRules.
  destruct (String.eqb (ec2.GroupName group) defaultSecurityGroup &&
            hasTagKey (ec2.Tags group) machineSecurityGroupName);
    repeat (constructor; [vm_compute; reflexivity |]); constructor.
Qed.

Lemma openPortRules_keys ports rules :
  Forall canonicalPort ports ->
  openPortRules E ports = inl rules ->
  Forall (fun c => ruleKey (snd c) = Some (fst c)) rules.
Proof.
  revert rules. induction ports as [| p ports IH]; intros rules Hcan; simpl.
  - intros [= <-]. constructor.
  - inversion Hcan as [| ? ? (portNum & Hparse & Hprint) Hrest]; subst.
    destruct (driverutil.SplitPortProto p) as [port protocol]. simpl in *.
    rewrite Hparse.
    destruct (openPortRules E ports) as [rules' | e]; [| discriminate].
    intros [= <-]. constructor; [| exact (IH _ Hrest eq_refl)].
    simpl. unfold ruleKey, portKey. simpl. rewrite Hprint. reflexivity.
Qed.

Lemma rules_with_keys d rules :
  Forall canonicalPort (OpenPorts d) ->
  openPortRules E (OpenPorts d) = inl rules ->
  forall group,
    Forall (fun c => ruleKey (snd c) = Some (fst c)) (builtinRules group ++ rules).
Proof.
  intros Hcan Hrules group. apply Forall_app. split.
  - apply builtinRules_keys.
  - exact (openPortRules_keys _ _ Hcan Hrules).
Qed.

Lemma missing_absent perms cands :
  Forall (fun c => ruleKey (snd c) = Some (fst c)) cands ->
  Forall (fun p => ~ recorded perms p) (missing (existingPorts perms) cands).
Proof.
  intros Hkeys. unfold missing.
  induction Hkeys as [| c l Hc _ IH]; simpl; [constructor |].
  destruct (has (existingPorts perms) (fst c)) eqn:Hhas; simpl; [exact IH |].
  constructor; [| exact IH].
  intros (key & Hkey & Hrec). rewrite Hc in Hkey. injection Hkey as <-.
  rewrite Hrec in Hhas. discriminate.
Qed.

Lemma missing_none perms cands :
  Forall (fun c => ruleKey (snd c) = Some (fst c)) cands ->
  Forall (recorded perms) (missing (existingPorts []) cands) ->
  missing (existingPorts perms) cands = [].
Proof.
  intros Hkeys. unfold missing.
  induction Hkeys as [| c l Hc _ IH]; simpl; [reflexivity |].
  change (existingPorts []) with (∅ : gmap string bool).
  rewrite has_empty. simpl. intros Hall.
  inversion Hall as [| ? ? (key & Hkey & Hrec) Hrest]; subst.
  rewrite Hc in Hkey. injection Hkey as <-. rewrite Hrec. simpl.
  exact (IH Hrest).
Qed.

(** X18.  With the open ports written canonically, no rule of the computed
    missing set is one the group already holds under its key, whether it
    is a built-in rule or one of the open ports. *)
Lemma missing_rules_not_recorded d group perms :
  Forall canonicalPort (OpenPorts d) ->
  configureSecurityGroupPermissions E d group = inl perms ->
  Forall (fun p => ~ recorded (ec2.IpPermissions group) p) perms.
Proof.
  intros Hcan. rewrite configureSecurityGroupPermissions_missing.
  destruct (openPortRules E (OpenPorts d)) as [rules |] eqn:Hrules;
    [| discriminate].
  intros Heq. injection Heq as Heq. rewrite <- Heq.
  apply missing_absent. exact (rules_with_keys d rules Hcan Hrules group).
Qed.

(** With the open ports written canonically, a group that already holds,
    under its key, every rule asked of an empty group has nothing
    missing. *)
Lemma provisioned_group_needs_nothing d group desired :
  Forall canonicalPort (OpenPorts d) ->
  configureSecurityGroupPermissions E d (withPermissions group []) = inl desired ->
  Forall (recorded (ec2.IpPermissions group)) desired ->
  configureSecurityGroupPermissions E d group = inl [].
Proof.
  intros Hcan. rewrite !configureSecurityGroupPermissions_missing.
  destruct (openPortRules E (OpenPorts d)) as [rules |] eqn:Hrules;
    [| discriminate].
  intros Heq Hall. injection Heq as Heq. rewrite <- Heq in Hall. f_equal.
  apply missing_none; [exact (rules_with_keys d rules Hcan Hrules group) |].
  exact Hall.
Qed.

Lemma configureSecurityGroupPermissions_OpenPorts d d' group :
  OpenPorts d = OpenPorts d' ->
  configureSecurityGroupPermissions E d group =
  configureSecurityGroupPermissions E d' group.
Proof.
  intros H. rewrite !configureSecurityGroupPermissions_missing, H. reflexivity.
Qed.

(** X19.  With the open ports written canonically, the reconciliation of a
    group found by name that already holds, under its key, every rule asked
    of an empty group records the group id and sends nothing: no
    authorize-ingress request. *)
Lemma reconciliation_idempotent_for_canonical_ports
  (st : State W) byName name group desired :
  Forall canonicalPort (OpenPorts (driver st)) ->
  byName !! name = Some group ->
  configureSecurityGroupPermissions E (driver st) (withPermissions group [])
    = inl desired ->
  Forall (recorded (ec2.IpPermissions group)) desired ->
  configureSecurityGroup E byName name st =
  (Ret None,
   {| driver := set_SecurityGroupIds
                  (SecurityGroupIds (driver st) ++ [ec2.GroupId group]) (driver st);
      world := world st; requests := requests st |}).
Proof.
  intros Hcan Hfound Hdesired Hall.
  pose proof (provisioned_group_needs_nothing _ _ _ Hcan Hdesired Hall) as Hnone.
  unfold configureSecurityGroup. rewrite Hfound. run.
  rewrite (configureSecurityGroupPermissions_OpenPorts _ (driver st))
    by reflexivity.
  rewrite Hnone. reflexivity.
Qed.

End Reconciliation.

(** ** The methods on the sample worlds *)

Section Runs.

Import Sample.

(** The instance is already gone, or no id was ever recorded. *)
Lemma terminate_gone_is_success_witness :
  InstanceId (created fresh) <> "" /\
  terminate gone (start (created fresh)) =
    (Ret None,
     sent (start (created fresh)) (TerminateInstancesInput ["i-0a1b2c3d"]) tt) /\
  terminate gone (start fresh) = (Ret None, start fresh).
Proof.
  assert (InstanceId (created fresh) <> "") as Hid by discriminate.
  split; [exact Hid |]. split.
  - exact (proj2 (terminate_gone_is_success gone (start (created fresh)))
             Hid _ _ eq_refl).
  - exact (proj1 (terminate_gone_is_success gone (start fresh)) eq_refl).
Defined.



(** The instance has a public address, and the private one is returned. *)
Lemma GetIP_policy_witness :
  let st := start (created (driverFor "node-1" "" [] [] true)) in
  let st' := sent st (DescribeInstancesInput ["i-0a1b2c3d"]) tt in
  getInstance calm st = (Ret (inl instance), st') /\
  ec2.PublicIpAddress instance = Some "171.33.80.5" /\
  GetIP calm st = (Ret ("10.0.0.7", None), st').
Proof.
  intros st st'. split; [reflexivity |]. split; [reflexivity |].
  exact (GetIP_policy calm st st' instance eq_refl).
Defined.

(** An empty answer makes the query panic. *)
Lemma getInstance_first_of_first_witness :
  let st := start (created fresh) in
  DescribeInstances vacant [InstanceId (driver st)] (world st) = (inl [], tt) /\
  panics (getInstance vacant st) /\ panics (GetIP vacant st).
Proof.
  intros st. split; [reflexivity |].
  destruct (getInstance_first_of_first vacant st [] tt eq_refl)
    as (_ & Hpanic & _).
  destruct (Hpanic (or_introl eq_refl)) as (H1 & H2 & _).
  exact (conj H1 H2).
Defined.


(** The run in which the address is refused and so is the termination. *)
Lemma refusing_run :
  let st := start fresh in
  let e := errorString
    "Error allocating external IP: AddressLimitExceeded: Too many addresses allocated" in
  let st1 := snd (innerCreate refusing st) in
  let st2 := snd (Remove refusing st1) in
  innerCreate refusing st = (Ret (Some e), st1) /\
  Remove refusing st1 =
    (Ret (Some (MultiError
       [errorString "unable to terminate instance: RequestLimitExceeded: Request limit exceeded."])),
     st2) /\
  Create refusing st = (Ret (Some e), st2).
Proof.
  intros st e st1 st2.
  split; [vm_compute; reflexivity |].
  split; vm_compute; reflexivity.
Qed.

(** In that run [Create] returns the creation error after the cleanup.
    Where no instance can be launched and none is shown, the cleanup
    panics while it looks for the key pair it imported, and so does
    [Create]. *)
Lemma Create_failure_runs_Remove_witness :
  let st := start fresh in
  let e := errorString
    "Error allocating external IP: AddressLimitExceeded: Too many addresses allocated" in
  let st1 := snd (innerCreate refusing st) in
  let st2 := snd (Remove refusing st1) in
  let e' := errorString
    "Error launching instance: InsufficientInstanceCapacity: Insufficient capacity." in
  let st1' := snd (innerCreate Cases.deserted st) in
  (innerCreate refusing st = (Ret (Some e), st1) /\
   Remove refusing st1 =
     (Ret (Some (MultiError
        [errorString "unable to terminate instance: RequestLimitExceeded: Request limit exceeded."])),
      st2) /\
   Create refusing st = (Ret (Some e), st2)) /\
  (innerCreate Cases.deserted st = (Ret (Some e'), st1') /\
   fst (Remove Cases.deserted st1') =
     Panic "index out of range [0] with length 0" /\
   Create Cases.deserted st =
     (Panic "index out of range [0] with length 0",
      snd (Remove Cases.deserted st1'))).
Proof.
  intros st e st1 st2 e' st1'.
  assert (innerCreate refusing st = (Ret (Some e), st1)) as H1
    by (vm_compute; reflexivity).
  assert (Remove refusing st1 =
          (Ret (Some (MultiError
             [errorString "unable to terminate instance: RequestLimitExceeded: Request limit exceeded."])),
           st2)) as H2
    by (vm_compute; reflexivity).
  assert (innerCreate Cases.deserted st = (Ret (Some e'), st1')) as H3
    by (vm_compute; reflexivity).
  assert (fst (Remove Cases.deserted st1') =
          Panic "index out of range [0] with length 0") as H4
    by (vm_compute; reflexivity).
  split; [split; [exact H1 |]; split; [exact H2 |] | split; [exact H3 |]; split; [exact H4 |]].
  - pose proof (Create_failure_runs_Remove refusing st st1 e H1) as HC.
    rewrite H2 in HC. exact HC.
  - pose proof (Create_failure_runs_Remove Cases.deserted st st1' e' H3) as HC.
    rewrite H4 in HC. exact HC.
Defined.

(** C1, as stated, fails: in that run the cleanup fails and [Create]
    returns the creation error alone, in which the failure to terminate
    the instance is nowhere to be seen. *)
Lemma Create_hides_cleanup_failure :
  ~ Create_reports_cleanup_failure refusing (start fresh).
Proof.
  intros H.
  destruct refusing_run as (H1 & H2 & H3).
  destruct (H _ _ _ _ H1 H2) as (x & Hx & _ & Hm).
  rewrite H3 in Hx. injection Hx as <-.
  destruct Hm as [Hm | [(Errs & Hm & _) | Hm]];
    [discriminate | discriminate | vm_compute in Hm; discriminate].
Qed.

(** The user-data file is missing; the key pair was imported before the
    file was looked at. *)
Lemma innerCreate_unreadable_userdata_witness :
  let st := start userDataHost in
  let st1 := snd (createKeyPair calm st) in
  let ioerr := errorString "open /etc/userdata.yml: no such file or directory" in
  createKeyPair calm st = (Ret None, st1) /\
  configureSecurityGroups calm (securityGroupNames (driver st1)) st1
    = (Ret None, st1) /\
  UserDataFile (driver st1) <> "" /\
  ReadFile calm (UserDataFile (driver st1)) (world st1) = inr ioerr /\
  innerCreate calm st = (Ret (Some errorReadingUserData), st1) /\
  Forall (fun rq => isRunInstances rq = false)
         (drop (length (requests st)) (requests st1)).
Proof.
  intros st st1 ioerr.
  assert (createKeyPair calm st = (Ret None, st1)) as H1
    by (vm_compute; reflexivity).
  assert (configureSecurityGroups calm (securityGroupNames (driver st1)) st1
          = (Ret None, st1)) as H2 by (vm_compute; reflexivity).
  assert (UserDataFile (driver st1) <> "") as H3 by (vm_compute; discriminate).
  assert (ReadFile calm (UserDataFile (driver st1)) (world st1) = inr ioerr)
    as H4 by (vm_compute; reflexivity).
  repeat (split; [assumption |]).
  exact (innerCreate_unreadable_userdata calm st st1 st1 ioerr H1 H2 H3 H4).
Defined.

(** C3, as stated, fails: the creation does fail with the named error, but
    an ImportKeyPair request has gone out by then. *)
Lemma userdata_failure_follows_key_import :
  ~ userdata_fails_before_mutation calm (start userDataHost).
Proof.
  intros H.
  destruct H as (st1 & Hrun & Hquiet).
  - discriminate.
  - intros w. eexists. reflexivity.
  - vm_compute in Hrun. injection Hrun as <-.
    vm_compute in Hquiet. inversion Hquiet as [| rq l Hmut _]. discriminate Hmut.
Qed.

(** C2, on the code.  With the host name "node1", [configureTags] does not
    complete under some unexpected tag key: the index of the hyphen is -1,
    the slice expression panics, and no CreateTags request is sent. *)
Theorem configureTags_plain_name_panics :
  strings.IndexByte (MachineName plainHost) "-" = -1 /\
  configureTags calm "" (start plainHost)
    = (Panic "slice bounds out of range", start plainHost).
Proof. split; reflexivity. Qed.

(** C7, on the code.  The host asks for port 8080 written "08080".  The
    first reconciliation of its empty group asks for 22/tcp, 2376/tcp and
    8080/tcp.  Once the group holds exactly these rules, so that 8080/tcp
    is recorded as present, the next reconciliation still finds the 8080
    rule missing, because it looks for the key "08080/tcp", and sends an
    authorize-ingress request for it. *)
Theorem reconciliation_resubmits_respelled_port :
  configureSecurityGroupPermissions calm webHost (webGroup []) = inl webRules /\
  has (existingPorts webRules) (portKey 8080 "tcp") = true /\
  has (existingPorts webRules) "08080/tcp" = false /\
  configureSecurityGroupPermissions calm webHost (webGroup webRules)
    = inl [openToAll "tcp" 8080 8080] /\
  requests (snd (configureSecurityGroups provisioned ["web"] (start webHost)))
    = [ DescribeSecurityGroupsInput (groupFilters ["web"] "vpc-1") [];
        AuthorizeSecurityGroupIngressInput "sg-0001" [openToAll "tcp" 8080 8080] ].
Proof.
  split; [vm_compute; reflexivity |].
  split; [vm_compute; reflexivity |].
  split; [vm_compute; reflexivity |].
  split; vm_compute; reflexivity.
Qed.

End Runs.

(** ** Further properties of the methods *)

Section UserTags.

Context {W : Type}.
Variable E : Env W.

Lemma not_occurs_cons c a s :
  ~ occurs c (String a s) -> a <> c /\ ~ occurs c s.
Proof.
  intros H. split.
  - intros ->. apply H. exists "", s. reflexivity.
  - intros (pre & rest & ->). apply H. exists (String a pre), rest. reflexivity.
Qed.

Lemma Split_free c s : ~ occurs c s -> strings.Split s c = [s].
Proof.
  induction s as [| a s IH]; intros H; simpl; [reflexivity |].
  destruct (not_occurs_cons _ _ _ H) as [Hne Hs].
  apply Ascii.eqb_neq in Hne. rewrite Hne, (IH Hs). reflexivity.
Qed.

Lemma Split_sep c s rest :
  ~ occurs c s ->
  strings.Split (s +:+ String c rest) c = s :: strings.Split rest c.
Proof.
  induction s as [| a s IH]; intros H.
  - rewrite append_nil. simpl. rewrite Ascii.eqb_refl. reflexivity.
  - destruct (not_occurs_cons _ _ _ H) as [Hne Hs].
    rewrite append_cons. simpl.
    apply Ascii.eqb_neq in Hne. rewrite Hne, (IH Hs). reflexivity.
Qed.

Lemma Split_concat tokens :
  tokens <> [] -> Forall commaFree tokens ->
  strings.Split (String.concat "," tokens) "," = tokens.
Proof.
  induction tokens as [| t tokens IH]; intros Hne Hfree; [contradiction |].
  inversion Hfree as [| ? ? Ht Hrest]; subst.
  destruct tokens as [| t' tokens].
  - simpl. apply Split_free. exact Ht.
  - change (String.concat "," (t :: t' :: tokens))
      with (t +:+ String "," (String.concat "," (t' :: tokens))).
    rewrite Split_sep by exact Ht. rewrite IH; [reflexivity | discriminate | exact Hrest].
Qed.

Lemma tagPairs_tokens pairs trailing :
  (length trailing <= 1)%nat ->
  tagPairs (tokensOf pairs ++ trailing) = map toTag pairs.
Proof.
  intros Hlen. induction pairs as [| [k v] pairs IH]; simpl.
  - destruct trailing as [| t [| t' trailing]]; simpl in *; [reflexivity .. | lia].
  - rewrite IH. reflexivity.
Qed.

(** X1.  What the tags option adds: the pairs it spells, whatever they are as
    long as no key or value holds a comma, and nothing for a last token
    left without a partner. *)
Theorem configureTags_user_pairs
  (st : State W) (pre rest : string)
  (pairs : list (string * string)) (trailing : list string) :
  MachineName (driver st) = pre +:+ String "-" rest ->
  ~ occurs "-" pre ->
  Forall commaFree (tokensOf pairs ++ trailing) ->
  (length trailing <= 1)%nat ->
  let d := driver st in
  let tags := fixedTags d pre ++ map toTag pairs in
  forall r w, CreateTags E [InstanceId d] tags (world st) = (r, w) ->
    configureTags E (String.concat "," (tokensOf pairs ++ trailing)) st =
    (Ret match r with inr err => Some err | inl _ => None end,
     sent st (CreateTagsInput [InstanceId d] tags) w).
Proof.
  intros Hname Hpre Hfree Hlen d tags r w Hcall.
  assert ((if String.eqb (String.concat "," (tokensOf pairs ++ trailing)) ""
           then []
           else tagPairs (strings.Split
                            (String.concat "," (tokensOf pairs ++ trailing)) ","))
          = map toTag pairs) as Hextra.
  { destruct (tokensOf pairs ++ trailing) as [| t tokens] eqn:Htok.
    - destruct pairs as [| [k v] pairs]; [reflexivity | discriminate].
    - rewrite Split_concat by (discriminate || exact Hfree).
      rewrite <- Htok, tagPairs_tokens by exact Hlen.
      destruct (String.eqb _ "") eqn:Hempty; [| reflexivity].
      apply String.eqb_eq in Hempty.
      destruct pairs as [| [k v] pairs]; [reflexivity |].
      simpl in Htok. injection Htok as <- <-.
      change (String.concat "," (k :: v :: tokensOf pairs ++ trailing))
        with (k +:+ String "," (String.concat "," (v :: tokensOf pairs ++ trailing)))
        in Hempty.
      destruct k; discriminate Hempty. }
  subst d tags. unfold fixedTags.
  pose proof (configureTags_with_separator E
                (String.concat "," (tokensOf pairs ++ trailing)) st pre rest
                Hname Hpre) as Hrun.
  simpl in Hrun. rewrite Hextra in Hrun. exact (Hrun r w Hcall).
Qed.

End UserTags.

Section Polling.

Context {W : Type}.
Variable E : Env W.

Lemma state_of_name (n : string) :
  state.eqb
    (if String.eqb n ec2.InstanceStateNamePending then state.Starting
     else if String.eqb n ec2.InstanceStateNameRunning then state.Running
     else if String.eqb n ec2.InstanceStateNameStopping then state.Stopping
     else if String.eqb n ec2.InstanceStateNameShuttingDown then state.Stopping
     else if String.eqb n ec2.InstanceStateNameStopped then state.Stopped
     else state.Error)
    state.Running
  = String.eqb n ec2.InstanceStateNameRunning.
Proof.
  destruct (String.eqb_spec n ec2.InstanceStateNamePending) as [-> | _];
    [reflexivity |].
  destruct (String.eqb_spec n ec2.InstanceStateNameRunning) as [-> | _];
    [reflexivity |].
  repeat match goal with
         | |- context [String.eqb n ?c] => destruct (String.eqb n c)
         end; reflexivity.
Qed.

(** One evaluation of the predicate of [waitForInstance]: one
    describe-instances request; a failed query counts as "not yet". *)
Lemma instanceIsRunning_run (st : State W) :
  instanceIsRunning E st =
  let rq := DescribeInstancesInput [InstanceId (driver st)] in
  match DescribeInstances E [InstanceId (driver st)] (world st) with
  | (inr err, w) => (Ret false, sent st rq w)
  | (inl [], w) => (Panic "index out of range [0] with length 0", sent st rq w)
  | (inl (r0 :: _), w) =>
      match ec2.Instances r0 with
      | [] => (Panic "index out of range [0] with length 0", sent st rq w)
      | i0 :: _ =>
          (Ret (String.eqb (ec2.StateName i0) ec2.InstanceStateNameRunning),
           sent st rq w)
      end
  end.
Proof.
  unfold instanceIsRunning, GetState, bind. rewrite getInstance_run. simpl.
  destruct (DescribeInstances E _ (world st)) as [[rs | err] w]; [| reflexivity].
  destruct rs as [| r0 rs]; [reflexivity |].
  destruct (ec2.Instances r0) as [| i0 others]; [reflexivity |].
  rewrite <- (state_of_name (ec2.StateName i0)).
  repeat match goal with
         | |- context [String.eqb (ec2.StateName i0) ?c] =>
             destruct (String.eqb (ec2.StateName i0) c)
         end; reflexivity.
Qed.

Lemma poll_again (n : nat) (st : State W) :
  WaitForSpecific E (instanceIsRunning E) (S n) st =
  let rq := DescribeInstancesInput [InstanceId (driver st)] in
  match DescribeInstances E [InstanceId (driver st)] (world st) with
  | (inr err, w) => WaitForSpecific E (instanceIsRunning E) n (sent st rq w)
  | (inl [], w) => (Panic "index out of range [0] with length 0", sent st rq w)
  | (inl (r0 :: _), w) =>
      match ec2.Instances r0 with
      | [] => (Panic "index out of range [0] with length 0", sent st rq w)
      | i0 :: _ =>
          if String.eqb (ec2.StateName i0) ec2.InstanceStateNameRunning
          then (Ret None, sent st rq w)
          else WaitForSpecific E (instanceIsRunning E) n (sent st rq w)
      end
  end.
Proof.
  cbn [WaitForSpecific]. unfold bind at 1. rewrite instanceIsRunning_run.
  cbv zeta.
  destruct (DescribeInstances E _ (world st)) as [[rs | err] w]; [| reflexivity].
  destruct rs as [| r0 rs]; [reflexivity |].
  destruct (ec2.Instances r0) as [| i0 others]; [reflexivity |].
  destruct (String.eqb (ec2.StateName i0) ec2.InstanceStateNameRunning);
    reflexivity.
Qed.

Lemma polls_instance (n : nat) (st : State W) :
  let id := InstanceId (driver st) in
  let run := WaitForSpecific E (instanceIsRunning E) n st in
  (fst run = Ret None \/ fst run = Ret (Some (errRetriesExceeded E)) \/
   panics run) /\
  driver (snd run) = driver st /\
  exists k, (k <= n)%nat /\
    requests (snd run) = requests st ++ repeat (DescribeInstancesInput [id]) k.
Proof.
  revert st. induction n as [| n IH]; intros st; cbv zeta.
  - simpl. split; [auto |]. split; [reflexivity |].
    exists 0%nat. simpl. rewrite app_nil_r. auto.
  - rewrite poll_again. cbv zeta.
    pose proof (fun w =>
      IH (sent st (DescribeInstancesInput [InstanceId (driver st)]) w)) as Hnext.
    cbv zeta in Hnext.
    destruct (DescribeInstances E _ (world st)) as [[rs | err] w].
    + destruct rs as [| r0 rs];
        [| destruct (ec2.Instances r0) as [| i0 others];
           [| destruct (String.eqb (ec2.StateName i0)
                          ec2.InstanceStateNameRunning)]].
      * simpl. split; [right; right; eexists; reflexivity |].
        split; [reflexivity |]. exists 1%nat. split; [lia | reflexivity].
      * simpl. split; [right; right; eexists; reflexivity |].
        split; [reflexivity |]. exists 1%nat. split; [lia | reflexivity].
      * simpl. split; [auto |].
        split; [reflexivity |]. exists 1%nat. split; [lia | reflexivity].
      * destruct (Hnext w) as (Hres & Hdrv & k & Hk & Hreq).
        split; [exact Hres |]. split; [exact Hdrv |].
        exists (S k). split; [lia |]. rewrite Hreq. simpl.
        rewrite <- app_assoc. reflexivity.
    + destruct (Hnext w) as (Hres & Hdrv & k & Hk & Hreq).
      split; [exact Hres |]. split; [exact Hdrv |].
      exists (S k). split; [lia |]. rewrite Hreq. simpl.
      rewrite <- app_assoc. reflexivity.
Qed.

(** X2.  [waitForInstance] only polls: it sends nothing but describe-instances
    requests for the recorded id, at most [maxAttempts] of them, leaves the
    driver as it is, and never returns the error of a query: it returns
    nil, or the error of the exhausted budget. *)
Theorem waitForInstance_only_polls (st : State W) :
  let run := waitForInstance E st in
  (fst run = Ret None \/ fst run = Ret (Some (errRetriesExceeded E)) \/
   panics run) /\
  driver (snd run) = driver st /\
  exists k, (k <= maxAttempts E)%nat /\
    requests (snd run) =
    requests st ++ repeat (DescribeInstancesInput [InstanceId (driver st)]) k.
Proof. exact (polls_instance (maxAttempts E) st). Qed.

Lemma exhausts (n : nat) (st : State W) :
  (forall w, notRunning (fst (DescribeInstances E [InstanceId (driver st)] w))) ->
  exists w,
    WaitForSpecific E (instanceIsRunning E) n st =
    (Ret (Some (errRetriesExceeded E)),
     {| driver := driver st; world := w;
        requests := requests st ++
                    repeat (DescribeInstancesInput [InstanceId (driver st)]) n |}).
Proof.
  intros Hnever. revert st Hnever.
  induction n as [| n IH]; intros st Hnever.
  - exists (world st). simpl. rewrite app_nil_r. destruct st; reflexivity.
  - rewrite poll_again. cbv zeta. pose proof (Hnever (world st)) as Hnow.
    destruct (IH (sent st (DescribeInstancesInput [InstanceId (driver st)])
                    (snd (DescribeInstances E [InstanceId (driver st)] (world st))))
                Hnever) as [w' Hrun].
    exists w'.
    destruct (DescribeInstances E _ (world st)) as [[rs | err] w]; simpl in *.
    + destruct rs as [| r0 rs]; [contradiction |].
      destruct (ec2.Instances r0) as [| i0 others]; [contradiction |].
      apply String.eqb_neq in Hnow. rewrite Hnow, Hrun.
      rewrite <- app_assoc. reflexivity.
    + rewrite Hrun. rewrite <- app_assoc. reflexivity.
Qed.

(** X3.  As long as the answers show no running instance, be it because the
    query fails, [waitForInstance] uses its whole budget, exactly
    [maxAttempts] requests, and returns the error of the exhausted budget,
    not the error of the query. *)
Theorem waitForInstance_exhausts_budget (st : State W) :
  (forall w, notRunning (fst (DescribeInstances E [InstanceId (driver st)] w))) ->
  exists w,
    waitForInstance E st =
    (Ret (Some (errRetriesExceeded E)),
     {| driver := driver st; world := w;
        requests := requests st ++
                    repeat (DescribeInstancesInput [InstanceId (driver st)])
                           (maxAttempts E) |}).
Proof. exact (exhausts (maxAttempts E) st). Qed.

Lemma address_seen (n : nat) (st st' : State W) :
  WaitForSpecific E (instanceIpAvailable E) n st = (Ret None, st') ->
  IPAddress (driver st') <> "".
Proof.
  revert st. induction n as [| n IH]; intros st; simpl; [discriminate |].
  unfold bind at 1.
  destruct (instanceIpAvailable E st) as [[b | msg] st1] eqn:Hpoll;
    [| discriminate].
  destruct b; [| apply IH].
  intros [= <-]. revert Hpoll. unfold instanceIpAvailable, bind.
  destruct (GetIP E st) as [[[ip err] | msg] st2]; [| discriminate].
  destruct (String.eqb_spec ip "") as [| Hip]; simpl; [discriminate |].
  unfold modify, ret. intros [= <-]. exact Hip.
Qed.

(** X4.  When the wait for the address of the instance succeeds, the driver has
    recorded a non-empty IPAddress. *)
Theorem address_recorded_after_wait (st st' : State W) :
  WaitFor E (instanceIpAvailable E) st = (Ret None, st') ->
  IPAddress (driver st') <> "".
Proof. exact (address_seen (maxAttempts E) st st'). Qed.

End Polling.

Section KeysAndCleanup.

Context {W : Type}.
Variable E : Env W.

Lemma resolveKeyPath_returns (st : State W) :
  exists r st1, resolveKeyPath E st = (Ret r, st1).
Proof.
  unfold resolveKeyPath. run.
  destruct (String.eqb (SSHPrivateKeyPath (driver st)) "").
  - destruct (GenerateSSHKey E _ (world st)) as [[e |] w]; simpl; eauto.
  - destruct (CopyFile E _ _ (world st)) as [[e |] w]; simpl; [eauto |].
    destruct (negb (String.eqb (KeyName (driver st)) "")); [eauto |].
    match goal with
    | |- context [CopyFile E ?a ?b ?x] =>
        destruct (CopyFile E a b x) as [[e |] w']; simpl; eauto
    end.
Qed.

Lemma createKeyPair_cases (st : State W) :
  exists r st',
    createKeyPair E st = (Ret r, st') /\
    (r <> None -> driver st' = driver st) /\
    (requests st' = requests st \/
     exists name key, requests st' = requests st ++ [ImportKeyPairInput name key]).
Proof.
  destruct (resolveKeyPath_returns st) as (k & st1 & Hpath).
  destruct (resolveKeyPath_frame E _ _ _ Hpath) as [Hd1 Hr1].
  unfold createKeyPair, bind at 1. rewrite Hpath.
  destruct k as [keyPath | returned].
  - unfold bind at 1. unfold read at 1.
    destruct (ReadFile E (keyPath +:+ ".pub") (world st1)) as [publicKey | err].
    + destruct (randomBytes_spec E 5 st1)
        as (suffix & st2 & Hrun & _ & _ & Hd2 & Hr2).
      unfold bind at 1. rewrite Hrun. run.
      destruct (ImportKeyPair E _ _ (world st2)) as [[u | err] w]; simpl.
      * do 2 eexists. split; [reflexivity |]. split; [intros H; contradiction |].
        right. do 2 eexists. simpl. rewrite Hr2, Hr1. reflexivity.
      * do 2 eexists. split; [reflexivity |]. simpl. split; [congruence |].
        right. do 2 eexists. rewrite Hr2, Hr1. reflexivity.
    + do 2 eexists. split; [reflexivity |]. auto.
  - do 2 eexists. split; [reflexivity |]. auto.
Qed.

(** X5.  [createKeyPair] always returns: the index into [charset] is never out
    of range.  It sends at most one request, an ImportKeyPair, and when it
    returns an error the driver is as it was: no key name is recorded. *)
Theorem createKeyPair_failure_records_nothing (st : State W) :
  exists r st',
    createKeyPair E st = (Ret r, st') /\
    (r <> None -> driver st' = driver st) /\
    (requests st' = requests st \/
     exists name key, requests st' = requests st ++ [ImportKeyPairInput name key]).
Proof. exact (createKeyPair_cases st). Qed.

(** X6.  With a private key path and the name of an existing key pair,
    [createKeyPair] copies the private key and is done: it imports nothing
    and keeps the name. *)
Theorem createKeyPair_existing_key (st : State W) (w : W) :
  SSHPrivateKeyPath (driver st) <> "" ->
  KeyName (driver st) <> "" ->
  CopyFile E (SSHPrivateKeyPath (driver st)) (GetSSHKeyPath E (driver st))
           (world st) = (None, w) ->
  createKeyPair E st = (Ret None, withWorld st w).
Proof.
  intros Hpath Hname Hcopy.
  apply String.eqb_neq in Hpath. apply String.eqb_neq in Hname.
  unfold createKeyPair, resolveKeyPath. run.
  rewrite Hpath, Hcopy. simpl. rewrite Hname. reflexivity.
Qed.

Lemma Remove_nothing_recorded (st : State W) :
  InstanceId (driver st) = "" -> KeyName (driver st) = "" ->
  Remove E st = (Ret None, st).
Proof.
  intros Hid Hkey. unfold Remove, terminate, deleteKeyPair. run.
  rewrite Hid. simpl. destruct (ExistingKey (driver st)); simpl;
    [reflexivity |]. rewrite Hkey. reflexivity.
Qed.

(** X7.  When the key pair cannot be set up for a driver that has no instance
    id and no key name yet, [Create] returns the wrapped error and the
    cleanup finds nothing to do: it sends no request at all. *)
Theorem Create_key_failure_needs_no_cleanup (st st1 : State W) (e : error) :
  InstanceId (driver st) = "" -> KeyName (driver st) = "" ->
  createKeyPair E st = (Ret (Some e), st1) ->
  Create E st =
  (Ret (Some (errorString ("unable to create key pair: " +:+ Error E e))), st1).
Proof.
  intros Hid Hkey Hcreate.
  destruct (createKeyPair_cases st) as (r & st' & Hrun & Hdrv & _).
  rewrite Hcreate in Hrun. injection Hrun as <- <-.
  assert (driver st1 = driver st) as Hsame by (apply Hdrv; discriminate).
  unfold Create, innerCreate, bind at 1. unfold bind at 1. rewrite Hcreate.
  unfold ret at 1. unfold bind at 1.
  rewrite Remove_nothing_recorded by (rewrite Hsame; assumption).
  reflexivity.
Qed.

(** X8.  [deleteKeyPair] asks for the instance first.  If that query fails it
    returns its error and deletes nothing; otherwise it deletes the key
    pair the instance reports, whatever key name the driver recorded. *)
Theorem deleteKeyPair_follows_instance (st : State W) :
  KeyName (driver st) <> "" ->
  let describe := DescribeInstancesInput [InstanceId (driver st)] in
  (forall err w,
     DescribeInstances E [InstanceId (driver st)] (world st) = (inr err, w) ->
     deleteKeyPair E st = (Ret (Some err), sent st describe w)) /\
  (forall r0 rs i0 others w r w',
     DescribeInstances E [InstanceId (driver st)] (world st)
       = (inl (r0 :: rs), w) ->
     ec2.Instances r0 = i0 :: others ->
     DeleteKeyPair E (ec2.KeyName i0) w = (r, w') ->
     deleteKeyPair E st =
     (Ret match r with inr err => Some err | inl _ => None end,
      sent (sent st describe w) (DeleteKeyPairInput (ec2.KeyName i0)) w')).
Proof.
  intros Hkey describe. subst describe. apply String.eqb_neq in Hkey.
  split.
  - intros err w Hd. unfold deleteKeyPair, bind at 1. unfold get at 1.
    rewrite Hkey. unfold bind at 1. rewrite getInstance_run, Hd. reflexivity.
  - intros r0 rs i0 others w r w' Hd Hi Hdel.
    unfold deleteKeyPair, bind at 1. unfold get at 1.
    rewrite Hkey. unfold bind at 1. rewrite getInstance_run, Hd, Hi.
    cbv zeta. unfold bind, call. simpl. rewrite Hdel.
    destruct r; reflexivity.
Qed.

Lemma terminate_teardown : emits (fun rq => isTeardown rq = true) (terminate E).
Proof. unfold terminate. frame. Qed.

Lemma deleteKeyPair_teardown :
  emits (fun rq => isTeardown rq = true) (deleteKeyPair E).
Proof. unfold deleteKeyPair, getInstance. frame. Qed.

Lemma Remove_teardown : emits (fun rq => isTeardown rq = true) (Remove E).
Proof.
  unfold Remove. frame.
  - apply terminate_teardown.
  - apply deleteKeyPair_teardown.
Qed.

Lemma Remove_same_driver : preserves (same (fun d => d)) (Remove E).
Proof. unfold Remove, terminate, deleteKeyPair, getInstance. frame. Qed.

(** X9.  [Remove] sends nothing but terminate-instances, describe-instances and
    delete-key-pair requests, and leaves the driver as it is: the instance
    id and the key name stay recorded after a removal. *)
Theorem Remove_touches_only_instance_and_key (st : State W) :
  driver (snd (Remove E st)) = driver st /\
  exists l, requests (snd (Remove E st)) = requests st ++ l /\
            Forall (fun rq => isTeardown rq = true) l.
Proof.
  destruct (Remove E st) as [r st'] eqn:Hrun. simpl. split.
  - exact (Remove_same_driver _ _ _ Hrun).
  - exact (Remove_teardown _ _ _ Hrun).
Qed.

(** X10.  [innerCreate] does not look at what [waitForInstance] returns: even
    when the wait for the running state gave up, the address is asked for
    next, and it is the outcome of that request that counts. *)
Theorem afterLaunch_ignores_wait
  (st st1 : State W) (instance : ec2.Instance) (waited : option error)
  (err : error) (w : W) :
  waitForInstance E (withDriver st (set_InstanceId (ec2.InstanceId instance) (driver st)))
    = (Ret waited, st1) ->
  AllocateAddress E "vpc" (world st1) = (inr err, w) ->
  afterLaunch E instance st =
  (Ret (Some (errorString ("Error allocating external IP: " +:+ Error E err))),
   sent st1 (AllocateAddressInput "vpc") w).
Proof.
  intros Hwait Halloc. unfold afterLaunch, bind at 1. unfold modify at 1.
  unfold withDriver in Hwait. unfold bind at 1. rewrite Hwait.
  unfold bind, call. rewrite Halloc. reflexivity.
Qed.

End KeysAndCleanup.

Section Groups.

Context {W : Type}.
Variable E : Env W.

Lemma WaitForSpecific_preserves (R : State W -> State W -> Prop)
  `{!Reflexive R, !Transitive R} f n :
  preserves R f -> preserves R (WaitForSpecific E f n).
Proof. intros Hf. induction n as [| n IH]; simpl; repeat frame_step; assumption. Qed.

Lemma createGroup_same name : preserves (same (fun d => d)) (createGroup E name).
Proof.
  unfold createGroup, WaitFor. repeat frame_step.
  all: apply WaitForSpecific_preserves; try apply _;
    unfold securityGroupAvailableFunc; repeat frame_step.
Qed.

Lemma configureSecurityGroup_ids byName name (st : State W) :
  let run := configureSecurityGroup E byName name st in
  (SecurityGroupIds (driver (snd run)) = SecurityGroupIds (driver st) \/
   exists id, SecurityGroupIds (driver (snd run))
              = SecurityGroupIds (driver st) ++ [id]) /\
  (fst run = Ret None ->
   exists id, SecurityGroupIds (driver (snd run))
              = SecurityGroupIds (driver st) ++ [id]).
Proof.
  cbv zeta. unfold configureSecurityGroup, bind.
  destruct ((match byName !! name with
             | Some securityGroup => ret (inl securityGroup)
             | None => createGroup E name
             end) st) as [[g | msg] st1] eqn:Hfind.
  - assert (driver st1 = driver st) as Hsame.
    { destruct (byName !! name).
      - injection Hfind as _ <-. reflexivity.
      - exact (createGroup_same name _ _ _ Hfind). }
    destruct g as [group | err]; [| simpl; rewrite Hsame; split; [auto | discriminate]].
    run. rewrite Hsame.
    destruct (configureSecurityGroupPermissions E _ group) as [[| p perms] | err];
      simpl.
    + split; eauto.
    + destruct (AuthorizeSecurityGroupIngress E _ _ (world st1)) as [[u | err] w];
        simpl; [split; eauto |].
      destruct (strings.Contains (Error E err) "already exists"); simpl;
        split; eauto.
    + split; [eauto | discriminate].
  - assert (driver st1 = driver st) as Hsame.
    { destruct (byName !! name).
      - discriminate.
      - exact (createGroup_same name _ _ _ Hfind). }
    simpl. rewrite Hsame. split; [auto | discriminate].
Qed.

Lemma configureEach_ids byName names (st : State W) :
  let run := configureEach E byName names st in
  exists ids,
    SecurityGroupIds (driver (snd run)) = SecurityGroupIds (driver st) ++ ids /\
    (length ids <= length names)%nat /\
    (fst run = Ret None -> length ids = length names).
Proof.
  revert st. induction names as [| name names IH]; intros st; cbv zeta.
  - exists []. simpl. rewrite app_nil_r. auto.
  - cbn [configureEach]. unfold bind.
    pose proof (configureSecurityGroup_ids byName name st) as Hone.
    cbv zeta in Hone.
    destruct (configureSecurityGroup E byName name st) as [[err | msg] st1];
      simpl in Hone; destruct Hone as [Hgrow Hdone].
    + destruct err as [e |].
      * simpl. destruct Hgrow as [-> | [id ->]].
        -- exists []. rewrite app_nil_r. simpl. split; [auto |].
           split; [lia | discriminate].
        -- exists [id]. simpl. split; [auto |]. split; [lia | discriminate].
      * destruct (Hdone eq_refl) as [id Hid].
        destruct (IH st1) as (ids & Hids & Hle & Hall). cbv zeta in *.
        exists (id :: ids). rewrite Hids, Hid, <- app_assoc. simpl.
        split; [reflexivity |]. split; [lia |]. intros H. rewrite (Hall H).
        reflexivity.
    + simpl. destruct Hgrow as [-> | [id ->]].
      * exists []. rewrite app_nil_r. simpl. split; [auto |].
        split; [lia | discriminate].
      * exists [id]. simpl. split; [auto |]. split; [lia | discriminate].
Qed.

(** X11.  [configureSecurityGroups] only ever appends to the recorded group ids:
    the ids recorded before stay in front, at most one id is added per
    requested name, and exactly one per name when it returns nil.  With no
    name at all it returns nil. *)
Theorem configureSecurityGroups_appends_ids (names : list string) (st : State W) :
  let run := configureSecurityGroups E names st in
  exists ids,
    SecurityGroupIds (driver (snd run)) = SecurityGroupIds (driver st) ++ ids /\
    (length ids <= length names)%nat /\
    (fst run = Ret None -> length ids = length names) /\
    (names = [] -> run = (Ret None, st)).
Proof.
  cbv zeta. unfold configureSecurityGroups.
  destruct names as [| name names].
  - exists []. simpl. rewrite app_nil_r. repeat split; auto.
  - unfold bind, get, call.
    destruct (DescribeSecurityGroups E _ _ (world st)) as [[groups | err] w];
      with_strategy opaque [configureEach] simpl.
    + match goal with
      | |- context [configureEach E ?m ?l ?s] =>
          destruct (configureEach_ids m l s) as (ids & Hids & Hle & Hall)
      end.
      cbv zeta in *. exists ids. simpl in *.
      split; [exact Hids |]. split; [exact Hle |]. split; [exact Hall |].
      discriminate.
    + exists []. rewrite app_nil_r. simpl.
      split; [reflexivity |]. split; [lia |]. split; discriminate.
Qed.

Lemma groupsByName_found (groups : list ec2.SecurityGroup)
  (m : gmap string ec2.SecurityGroup) (name : string) :
  In name (map ec2.GroupName groups) \/ is_Some (m !! name) ->
  is_Some (foldl (fun m securityGroup =>
                    <[ec2.GroupName securityGroup := securityGroup]> m)
                 m groups !! name).
Proof.
  revert m. induction groups as [| g groups IH]; intros m; simpl.
  - intros [[] | H]. exact H.
  - intros [[Hg | Hin] | Hm]; apply IH; auto.
    + right. rewrite Hg. rewrite lookup_insert_eq. eauto.
    + right. rewrite lookup_insert. destruct (decide (ec2.GroupName g = name));
        [eauto | exact Hm].
Qed.

Lemma found_group_quiet byName name group :
  byName !! name = Some group ->
  emits (fun rq => isCreateGroup rq = false) (configureSecurityGroup E byName name).
Proof. intros Hfound. unfold configureSecurityGroup. rewrite Hfound. frame. Qed.

Lemma configureEach_found byName names :
  (forall name, In name names -> is_Some (byName !! name)) ->
  emits (fun rq => isCreateGroup rq = false) (configureEach E byName names).
Proof.
  induction names as [| n names IH]; intros Hall; simpl; [frame |].
  apply preserves_bind; [apply _ | |].
  - destruct (Hall n (or_introl eq_refl)) as [group Hn].
    exact (found_group_quiet byName n group Hn).
  - intros [e |]; [frame |]. apply IH. intros name Hin. apply Hall. right.
    exact Hin.
Qed.

(** X12.  When the describe answer holds a group for every requested name, the
    reconciliation creates no group and tags none. *)
Theorem existing_groups_are_not_created
  (names : list string) (st : State W) (groups : list ec2.SecurityGroup) (w : W) :
  DescribeSecurityGroups E (groupFilters names (VpcId (driver st))) []
    (world st) = (inl groups, w) ->
  (forall name, In name names -> In name (map ec2.GroupName groups)) ->
  Forall (fun rq => isCreateGroup rq = false)
         (drop (length (requests st))
               (requests (snd (configureSecurityGroups E names st)))).
Proof.
  intros Hdescribe Hall. unfold configureSecurityGroups.
  destruct names as [| name names].
  - simpl. rewrite drop_all. constructor.
  - unfold bind, get, call. rewrite Hdescribe.
    with_strategy opaque [configureEach] simpl.
    match goal with
    | |- context [configureEach E ?m ?l ?s] =>
        destruct (configureEach E m l s) as [r st'] eqn:Hrun;
        assert (forall n, In n l -> is_Some (m !! n)) as Hfound
    end.
    { intros n Hin. apply groupsByName_found. left. apply Hall. exact Hin. }
    destruct (configureEach_found _ _ Hfound _ _ _ Hrun) as (l & Hreq & Hl).
    simpl in *. rewrite Hreq, <- app_assoc, drop_app_length.
    constructor; [reflexivity | exact Hl].
Qed.

(** X13.  A group that had to be created, or adopted after an "already exists"
    answer, comes back carrying the management tag and nothing else as its
    tags, so that a group named rancher-nodes created here counts as
    managed. *)
Theorem created_group_is_tagged (name : string) (st st' : State W)
  (group : ec2.SecurityGroup) :
  createGroup E name st = (Ret (inl group), st') ->
  ec2.Tags group = [managedTag E] /\
  hasTagKey (ec2.Tags group) machineSecurityGroupName = true.
Proof.
  intros Hrun.
  assert (ec2.Tags group = [managedTag E]) as Htags; cycle 1.
  { split; [exact Htags |]. rewrite Htags. reflexivity. }
  revert Hrun. unfold createGroup, bind at 1 2. unfold get at 1.
  destruct (call _ _ st) as [[created | msg] st1]; [| discriminate].
  unfold bind at 1.
  match goal with
  | |- context [match ?m st1 with _ => _ end] =>
      destruct (m st1) as [[[g | err] | msg] st2]
  end; try discriminate.
  unfold bind at 1.
  destruct (call _ _ st2) as [[t | msg] st3]; [| discriminate].
  assert (forall st4,
            (let* err := WaitFor E (securityGroupAvailableFunc E (ec2.GroupId g)) in
             match err with
             | Some e => ret (inr e)
             | None =>
                 ret (inl {| ec2.GroupId := ec2.GroupId g;
                             ec2.GroupName := ec2.GroupName g;
                             ec2.VpcId := ec2.VpcId g;
                             ec2.IpPermissions := ec2.IpPermissions g;
                             ec2.Tags := [managedTag E] |})
             end) st4 = (Ret (inl group), st') ->
            ec2.Tags group = [managedTag E]) as Hwait.
  { intros st4. unfold bind.
    destruct (WaitFor E _ st4) as [[[e |] | msg] st5]; try discriminate.
    intros [= <- _]. reflexivity. }
  destruct t as [u | err]; [apply Hwait |].
  destruct (strings.Contains (Error E err) "already exists"); simpl;
    [apply Hwait | discriminate].
Qed.

End Groups.

Section Rules.

Context {W : Type}.
Variable E : Env W.

Lemma openPortRules_parse ports :
  match openPortRules E ports with
  | inl rules =>
      Forall2 (fun raw rule =>
                 exists portNum,
                   strconv.ParseInt (fst (driverutil.SplitPortProto raw))
                     = inl portNum /\
                   rule = (fst (driverutil.SplitPortProto raw) +:+ "/" +:+
                           snd (driverutil.SplitPortProto raw),
                           openToAll (snd (driverutil.SplitPortProto raw))
                                     portNum portNum))
              ports rules
  | inr e =>
      exists raw kind,
        In raw ports /\
        strconv.ParseInt (fst (driverutil.SplitPortProto raw)) = inr kind /\
        e = errorString
              ("invalid port number " +:+ fst (driverutil.SplitPortProto raw)
               +:+ ": " +:+
               NumError_text E (fst (driverutil.SplitPortProto raw)) kind)
  end.
Proof.
  induction ports as [| p ports IH]; simpl; [constructor |].
  destruct (driverutil.SplitPortProto p) as [port protocol] eqn:Hsplit.
  destruct (strconv.ParseInt port) as [portNum | kind] eqn:Hparse.
  - destruct (openPortRules E ports) as [rules | e].
    + constructor; [| exact IH]. rewrite Hsplit. simpl. eauto.
    + destruct IH as (raw & kind & Hin & Hk & He). exists raw, kind. auto.
  - exists p, kind. rewrite Hsplit. simpl. auto.
Qed.

(** X14.  [configureSecurityGroupPermissions] fails exactly when one of the open
    ports has a port number that [strconv.ParseInt] refuses; the error is
    then "invalid port number ..." for such an entry, and no rule is
    returned, whatever the group already holds. *)
Theorem invalid_open_port_is_fatal (d : Driver) (group : ec2.SecurityGroup) :
  match configureSecurityGroupPermissions E d group with
  | inl _ =>
      Forall (fun raw => exists portNum,
                strconv.ParseInt (fst (driverutil.SplitPortProto raw))
                  = inl portNum)
             (OpenPorts d)
  | inr e =>
      exists raw kind,
        In raw (OpenPorts d) /\
        strconv.ParseInt (fst (driverutil.SplitPortProto raw)) = inr kind /\
        e = errorString
              ("invalid port number " +:+ fst (driverutil.SplitPortProto raw)
               +:+ ": " +:+
               NumError_text E (fst (driverutil.SplitPortProto raw)) kind)
  end.
Proof.
  rewrite configureSecurityGroupPermissions_missing.
  pose proof (openPortRules_parse (OpenPorts d)) as H.
  destruct (openPortRules E (OpenPorts d)) as [rules | e]; [| exact H].
  induction H as [| raw rule ports rules (portNum & Hp & _) _ IH];
    constructor; eauto.
Qed.

Lemma missing_sublist h rules : sublist (missing h rules) (map snd rules).
Proof.
  unfold missing. induction rules as [| c rules IH]; simpl; [constructor |].
  destruct (negb (has h (fst c))); simpl.
  - apply sublist_skip. exact IH.
  - apply sublist_cons. exact IH.
Qed.

Lemma Forall_of_sublist {A} (P : A -> Prop) (l1 l2 : list A) :
  sublist l1 l2 -> Forall P l2 -> Forall P l1.
Proof.
  induction 1 as [| x l1 l2 _ IH | x l1 l2 _ IH]; intros H;
    [constructor | |]; inversion H; subst; [constructor |]; auto.
Qed.

Lemma missing_of_none rules : missing (existingPorts []) rules = map snd rules.
Proof.
  unfold missing. change (existingPorts []) with (∅ : gmap string bool).
  induction rules as [| c rules IH]; simpl; [reflexivity |].
  rewrite has_empty. simpl. rewrite IH. reflexivity.
Qed.

(** X15.  Whatever the group already holds, the rules found missing are, in the
    same order, among those asked of the same group holding nothing; the
    existing permissions can only take rules away.  The two computations
    fail together, with the same error. *)
Theorem missing_rules_are_desired_rules (d : Driver) (group : ec2.SecurityGroup) :
  match configureSecurityGroupPermissions E d group,
        configureSecurityGroupPermissions E d (withPermissions group []) with
  | inl perms, inl desired => sublist perms desired
  | inr e, inr e' => e = e'
  | _, _ => False
  end.
Proof.
  rewrite !configureSecurityGroupPermissions_missing.
  destruct (openPortRules E (OpenPorts d)) as [rules | e]; [| reflexivity].
  change (builtinRules (withPermissions group [])) with (builtinRules group).
  cbn [withPermissions ec2.IpPermissions].
  rewrite missing_of_none. apply missing_sublist.
Qed.

(** X16.  For a group that is not the managed default group (another name, or
    no management tag), every rule found missing is the SSH rule, the
    agent-port rule, or a single port of the open-ports option, open to any
    source. *)
Theorem other_groups_get_basic_rules
  (d : Driver) (group : ec2.SecurityGroup) (perms : list ec2.IpPermission) :
  ec2.GroupName group <> defaultSecurityGroup \/
  hasTagKey (ec2.Tags group) machineSecurityGroupName = false ->
  configureSecurityGroupPermissions E d group = inl perms ->
  Forall (fun p =>
            p = openToAll "tcp" 22 22 \/
            p = openToAll "tcp" dockerPort dockerPort \/
            exists raw portNum,
              In raw (OpenPorts d) /\
              strconv.ParseInt (fst (driverutil.SplitPortProto raw))
                = inl portNum /\
              p = openToAll (snd (driverutil.SplitPortProto raw)) portNum portNum)
         perms.
Proof.
  intros Hother. rewrite configureSecurityGroupPermissions_missing.
  pose proof (openPortRules_parse (OpenPorts d)) as Hparse.
  destruct (openPortRules E (OpenPorts d)) as [rules | e]; [| discriminate].
  intros [= <-].
  assert (String.eqb (ec2.GroupName group) defaultSecurityGroup &&
          hasTagKey (ec2.Tags group) machineSecurityGroupName = false) as Hcond.
  { destruct Hother as [Hname | Htag].
    - apply String.eqb_neq in Hname. rewrite Hname. reflexivity.
    - rewrite Htag. apply andb_false_r. }
  eapply Forall_of_sublist; [apply missing_sublist |].
  unfold builtinRules. rewrite Hcond. cbn [map snd app].
  constructor; [auto |]. constructor; [auto |].
  induction Hparse as [| raw rule ports rules (portNum & Hp & ->) _ IH];
    simpl; constructor.
  - right. right. exists raw, portNum. simpl. auto.
  - eapply Forall_impl; [exact IH |].
    intros p [H | [H | (raw' & n & Hin & Hn & Hpeq)]]; auto.
    right. right. exists raw', n. simpl. auto.
Qed.

End Rules.

Section Checks.

Context {W : Type}.
Variable E : Env W.
Variable L : Lookups W.

Lemma defaultForAz_at (before : list ec2pre.Subnet) s after :
  Forall (fun s' => ec2pre.DefaultForAz s' <> Some true) before ->
  ec2pre.DefaultForAz s = Some true ->
  defaultForAz (before ++ s :: after) = Some (ec2pre.SubnetId s).
Proof.
  intros Hbefore Hs. induction Hbefore as [| s' before Hs' _ IH]; simpl.
  - rewrite Hs. reflexivity.
  - destruct (ec2pre.DefaultForAz s') as [[|] |]; [contradiction | exact IH ..].
Qed.

Lemma defaultForAz_none (subnets : list ec2pre.Subnet) :
  Forall (fun s' => ec2pre.DefaultForAz s' <> Some true) subnets ->
  defaultForAz subnets = None.
Proof.
  induction 1 as [| s' subnets Hs' _ IH]; simpl; [reflexivity |].
  destruct (ec2pre.DefaultForAz s') as [[|] |]; [contradiction | exact IH ..].
Qed.

(** X21.  With no subnet configured, [checkSubnet] records a subnet of the
    answer: the first one, unless the answer holds several subnets and one
    of them is the default of its zone, in which case the first such one.
    With an empty answer it fails and records nothing. *)
Theorem checkSubnet_choice
  (st : State W) (subnets : list ec2pre.Subnet) (w : W) :
  SubnetId (driver st) = "" ->
  DescribeSubnets L
    [ {| ec2.Name := "availability-zone";
         ec2.Values := [getRegionZone (driver st)] |};
      {| ec2.Name := "vpc-id"; ec2.Values := [VpcId (driver st)] |} ]
    (world st) = (inl subnets, w) ->
  match subnets with
  | [] =>
      checkSubnet L st =
      (Ret (Some (errorString ("unable to find a subnet in the zone: " +:+
                               getRegionZone (driver st)))),
       withWorld st w)
  | first :: others =>
      (others = [] \/
       Forall (fun s => ec2pre.DefaultForAz s <> Some true) subnets ->
       checkSubnet L st =
       (Ret None,
        withDriver (withWorld st w)
                   (set_SubnetId (ec2pre.SubnetId first) (driver st)))) /\
      (others <> [] ->
       forall before s after,
         subnets = before ++ s :: after ->
         Forall (fun s' => ec2pre.DefaultForAz s' <> Some true) before ->
         ec2pre.DefaultForAz s = Some true ->
         checkSubnet L st =
         (Ret None,
          withDriver (withWorld st w)
                     (set_SubnetId (ec2pre.SubnetId s) (driver st))))
  end.
Proof.
  intros Hnone Hanswer. unfold checkSubnet, query. run.
  rewrite Hnone. simpl. rewrite Hanswer.
  destruct subnets as [| first others]; [reflexivity |].
  split.
  - intros [-> | Hno]; [reflexivity |].
    pose proof (defaultForAz_none _ Hno) as Hdef.
    destruct others as [| second others]; [reflexivity |].
    simpl in Hdef. simpl. rewrite Hdef. reflexivity.
  - intros Hseveral before s after Heq Hbefore Hs.
    pose proof (defaultForAz_at before s after Hbefore Hs) as Hdef.
    rewrite <- Heq in Hdef.
    destruct others as [| second others]; [contradiction |].
    simpl in Hdef. simpl. rewrite Hdef. reflexivity.
Qed.

(** X22.  With no root device name configured, [checkAMI] takes the one of the
    image, so that the volume size and type configured for the root volume
    land, in [updateBDMList], on the root device of the image. *)
Theorem root_override_follows_image
  (st : State W) (image : ec2pre.Image) (images : list ec2pre.Image) (w : W) :
  DeviceName (driver st) = "" ->
  DescribeImages L [AMI (driver st)] (world st) = (inl (image :: images), w) ->
  exists st1 out st2,
    checkAMI L st = (Ret None, st1) /\
    updateBDMList st1 = (Ret out, st2) /\
    DeviceName (driver st1) = ec2pre.RootDeviceName image /\
    RootSize (driver st1) = RootSize (driver st) /\
    VolumeType (driver st1) = VolumeType (driver st) /\
    Forall2 (overridden (driver st1))
            (List.filter hasEbs (ec2pre.BlockDeviceMappings image)) out.
Proof.
  intros Hnone Himages. unfold checkAMI, query, updateBDMList. run.
  rewrite Himages. simpl. rewrite Hnone. simpl.
  do 3 eexists. split; [reflexivity |]. split; [reflexivity |].
  simpl. repeat (split; [reflexivity |]).
  rewrite collect_ebs. simpl. apply filter_map_updateBDM.
Qed.

Lemma defaultVpc_skip (st : State W) before attributes :
  Forall (fun a => ec2pre.AttributeName a <> "default-vpc") before ->
  defaultVpc (before ++ attributes) st = defaultVpc attributes st.
Proof.
  induction 1 as [| a before Ha _ IH]; simpl; [reflexivity |].
  apply String.eqb_neq in Ha. rewrite Ha. exact IH.
Qed.

(** X23.  [getDefaultVPCId] answers with the first value of the first attribute
    named default-vpc; it panics if that attribute has no value, and fails
    with "No default-vpc attribute" if there is no such attribute. *)
Theorem getDefaultVPCId_first_attribute
  (st : State W) (attributes : list ec2pre.AccountAttribute) (w : W) :
  DescribeAccountAttributes L (world st) = (inl attributes, w) ->
  (Forall (fun a => ec2pre.AttributeName a <> "default-vpc") attributes ->
   getDefaultVPCId L st =
   (Ret ("", Some (errorString "No default-vpc attribute")), withWorld st w)) /\
  (forall before a after,
     attributes = before ++ a :: after ->
     Forall (fun a' => ec2pre.AttributeName a' <> "default-vpc") before ->
     ec2pre.AttributeName a = "default-vpc" ->
     getDefaultVPCId L st =
     (match ec2pre.AttributeValues a with
      | value :: _ => Ret (value, None)
      | [] => Panic "index out of range [0] with length 0"
      end, withWorld st w)).
Proof.
  intros Hanswer. unfold getDefaultVPCId, query, bind, local.
  rewrite Hanswer. fold (withWorld st w). split.
  - intros Hnone. rewrite <- (app_nil_r attributes).
    rewrite defaultVpc_skip by exact Hnone. reflexivity.
  - intros before a after -> Hbefore Ha.
    rewrite defaultVpc_skip by exact Hbefore. simpl.
    apply String.eqb_eq in Ha. rewrite Ha.
    destruct (ec2pre.AttributeValues a); reflexivity.
Qed.

Lemma MustBeRunning_run (st : State W) r0 rs i0 others w :
  DescribeInstances E [InstanceId (driver st)] (world st) = (inl (r0 :: rs), w) ->
  ec2.Instances r0 = i0 :: others ->
  MustBeRunning E st =
  (Ret (if String.eqb (ec2.StateName i0) ec2.InstanceStateNameRunning
        then None else Some ErrHostIsNotRunning),
   sent st (DescribeInstancesInput [InstanceId (driver st)]) w).
Proof.
  intros Hd Hi. unfold MustBeRunning, GetState, bind.
  rewrite getInstance_run, Hd, Hi. cbv zeta.
  rewrite <- (state_of_name (ec2.StateName i0)).
  repeat match goal with
         | |- context [String.eqb (ec2.StateName i0) ?c] =>
             destruct (String.eqb (ec2.StateName i0) c)
         end; reflexivity.
Qed.

(** X24.  [GetURL] asks for the state first.  For an instance that is not
    running it returns "Host is not running" and does not ask for the
    address; for a running one it asks again and returns tcp://ip:2376 for
    the address [GetIP] selects. *)
Theorem GetURL_needs_running_instance
  (st : State W) r0 rs i0 others (w : W) :
  DescribeInstances E [InstanceId (driver st)] (world st) = (inl (r0 :: rs), w) ->
  ec2.Instances r0 = i0 :: others ->
  let st1 := sent st (DescribeInstancesInput [InstanceId (driver st)]) w in
  (ec2.StateName i0 <> ec2.InstanceStateNameRunning ->
   GetURL E st = (Ret ("", Some ErrHostIsNotRunning), st1)) /\
  (ec2.StateName i0 = ec2.InstanceStateNameRunning ->
   forall ip st2,
     GetIP E st1 = (Ret (ip, None), st2) ->
     ip <> "" -> ~ occurs ":" ip ->
     GetURL E st = (Ret ("tcp://" +:+ ip +:+ ":2376", None), st2)).
Proof.
  intros Hd Hi st1. pose proof (MustBeRunning_run st r0 rs i0 others w Hd Hi) as Hrun.
  split.
  - intros Hstate. apply String.eqb_neq in Hstate. rewrite Hstate in Hrun.
    unfold GetURL, bind. rewrite Hrun. reflexivity.
  - intros Hstate ip st2 Hip Hne Hcolon.
    apply String.eqb_eq in Hstate. rewrite Hstate in Hrun.
    unfold GetURL, bind. rewrite Hrun. fold st1. rewrite Hip.
    apply String.eqb_neq in Hne. rewrite Hne.
    unfold JoinHostPort. rewrite (IndexByte_absent _ _ Hcolon). reflexivity.
Qed.

End Checks.

Section Success.

Context {W : Type}.
Variable E : Env W.

Lemma bind_ret_inv {A B} (m : M W A) (k : A -> M W B) st b st' :
  bind m k st = (Ret b, st') ->
  exists a st1, m st = (Ret a, st1) /\ k a st1 = (Ret b, st').
Proof.
  unfold bind. destruct (m st) as [[a | msg] st1]; [eauto | discriminate].
Qed.

Lemma IndexByte_found s c : 0 <= strings.IndexByte s c -> occurs c s.
Proof.
  induction s as [| a s IH]; simpl; [lia |].
  destruct (Ascii.eqb_spec a c) as [-> | Hne].
  - intros _. exists "", s. reflexivity.
  - destruct (strings.IndexByte s c <? 0) eqn:Hneg; [lia |].
    apply Z.ltb_ge in Hneg. intros _.
    destruct (IH Hneg) as (pre & rest & ->).
    exists (String a pre), rest. reflexivity.
Qed.

Lemma configureTags_done tagGroups (st st' : State W) :
  configureTags E tagGroups st = (Ret None, st') ->
  occurs "-" (MachineName (driver st)) /\ driver st' = driver st /\
  exists tags,
    requests st' = requests st ++ [CreateTagsInput [InstanceId (driver st)] tags].
Proof.
  unfold configureTags. run.
  destruct (slice_to _ _) as [ClusterName |] eqn:Hslice; [| discriminate].
  unfold slice_to in Hslice.
  destruct (0 <=? strings.IndexByte (MachineName (driver st)) "-") eqn:Hpos;
    [| discriminate].
  apply Z.leb_le in Hpos. unfold bind, call. simpl.
  match goal with
  | |- context [CreateTags E ?ids ?tags ?w] =>
      destruct (CreateTags E ids tags w) as [[u | err] w']; simpl;
      intros [= <-]; simpl;
      (split; [exact (IndexByte_found _ _ Hpos) |]); split; eauto
  end.
Qed.

Lemma afterLaunch_done (instance : ec2.Instance) (st st' : State W) :
  afterLaunch E instance st = (Ret None, st') ->
  IPAddress (driver st') <> "" /\
  occurs "-" (MachineName (driver st')) /\
  exists before tags,
    requests st' = before ++ [CreateTagsInput [InstanceId (driver st')] tags].
Proof.
  unfold afterLaunch. intros H.
  apply bind_ret_inv in H. destruct H as (? & s1 & _ & H).
  apply bind_ret_inv in H. destruct H as (? & s2 & _ & H).
  apply bind_ret_inv in H. destruct H as ([eip | err] & s3 & _ & H);
    [| discriminate].
  apply bind_ret_inv in H. destruct H as (? & s4 & _ & H).
  apply bind_ret_inv in H. destruct H as (? & s5 & _ & H).
  apply bind_ret_inv in H. destruct H as (d & s6 & _ & H).
  apply bind_ret_inv in H. destruct H as ([u | err] & s7 & _ & H);
    [| discriminate].
  apply bind_ret_inv in H. destruct H as ([e |] & s8 & Hwait & H);
    [discriminate |].
  apply (address_seen E (maxAttempts E)) in Hwait.
  apply bind_ret_inv in H. destruct H as (? & s9 & Hpriv & H).
  assert (IPAddress (driver s9) <> "") as Hip.
  { destruct (ec2.PrivateIpAddress instance); injection Hpriv as _ <-;
      exact Hwait. }
  apply bind_ret_inv in H. destruct H as (d' & s10 & Hget & H).
  injection Hget as <- <-.
  apply bind_ret_inv in H. destruct H as ([e |] & s11 & Hmeta & H);
    [discriminate |].
  assert (driver s11 = driver s9) as Hsame.
  { revert Hmeta. destruct (_ || _); [| intros [= <-]; reflexivity].
    unfold bind, call.
    destruct (ModifyInstanceMetadataOptions E _ _ _ (world s9)) as [[u' | err] w'];
      simpl; intros [= <-]; reflexivity. }
  apply bind_ret_inv in H. destruct H as ([e |] & s12 & Htags & H);
    [discriminate |].
  injection H as <-.
  destruct (configureTags_done _ _ _ Htags) as (Hhyphen & Hdrv & tags & Hreq).
  rewrite Hdrv, Hsame. split; [exact Hip |]. split.
  - rewrite <- Hsame. exact Hhyphen.
  - exists (requests s11), tags. rewrite Hreq, <- Hsame. reflexivity.
Qed.

Lemma randomBytes_preserves (R : State W -> State W -> Prop)
  `{!Reflexive R, !Transitive R} n :
  (forall st w, R st {| driver := driver st; world := w;
                        requests := requests st |}) ->
  preserves R (randomBytes E n).
Proof.
  intros Hworld. induction n as [| n IH]; simpl; repeat frame_step;
    try assumption.
  apply preserves_local. exact Hworld.
Qed.

Lemma configureEach_preserves (R : State W -> State W -> Prop)
  `{!Reflexive R, !Transitive R} byName names :
  (forall name, preserves R (configureSecurityGroup E byName name)) ->
  preserves R (configureEach E byName names).
Proof.
  intros Hone. induction names as [| n names IH]; simpl; repeat frame_step;
    try assumption.
  apply Hone.
Qed.

Lemma innerCreate_keeps_name : preserves (same MachineName) (innerCreate E).
Proof.
  assert (forall f, preserves (same MachineName) f ->
                    preserves (same MachineName) (WaitFor E f)) as Hwait.
  { intros f Hf. unfold WaitFor. apply WaitForSpecific_preserves; by_instance.
    exact Hf. }
  assert (preserves (same MachineName) (getInstance E)) as Hget.
  { unfold getInstance. repeat frame_step. }
  unfold innerCreate. apply preserves_bind; by_instance.
  { unfold createKeyPair, resolveKeyPath. repeat frame_step.
    all: apply randomBytes_preserves; by_instance; intros; reflexivity. }
  intros [e |]; [repeat frame_step |].
  apply preserves_bind; by_instance; [repeat frame_step |]. intros d.
  apply preserves_bind; by_instance.
  { unfold configureSecurityGroups. destruct (securityGroupNames d);
      repeat frame_step.
    apply configureEach_preserves; by_instance. intros name.
    unfold configureSecurityGroup, createGroup. repeat frame_step.
    all: apply Hwait; unfold securityGroupAvailableFunc; repeat frame_step. }
  intros [e |]; [repeat frame_step |].
  unfold Base64UserData, updateBDMList. repeat frame_step.
  unfold afterLaunch, waitForInstance, configureTags. repeat frame_step.
  all: try (apply Hwait; unfold instanceIsRunning, instanceIpAvailable, GetState,
              GetIP; repeat frame_step; exact Hget).
Qed.

(** X25.  [innerCreate] returns nil only at the very end: the driver then has a
    non-empty IPAddress and the last request sent is the CreateTags for
    the instance.  Since the tags need the cluster identifier, it never
    returns nil for a host name without a hyphen. *)
Theorem innerCreate_success_means_tagged (st st' : State W) :
  innerCreate E st = (Ret None, st') ->
  IPAddress (driver st') <> "" /\
  occurs "-" (MachineName (driver st)) /\
  exists before tags,
    requests st' = before ++ [CreateTagsInput [InstanceId (driver st')] tags].
Proof.
  intros Hrun. pose proof (innerCreate_keeps_name _ _ _ Hrun) as Hname.
  unfold same in Hname. revert Hrun. unfold innerCreate. intros H.
  apply bind_ret_inv in H. destruct H as ([e |] & s1 & _ & H); [discriminate |].
  apply bind_ret_inv in H. destruct H as (d & s2 & _ & H).
  apply bind_ret_inv in H. destruct H as ([e |] & s3 & _ & H); [discriminate |].
  apply bind_ret_inv in H. destruct H as ([userdata [e |]] & s4 & _ & H);
    [discriminate |].
  apply bind_ret_inv in H. destruct H as (bdm & s5 & _ & H).
  apply bind_ret_inv in H. destruct H as (d' & s6 & _ & H).
  apply bind_ret_inv in H. destruct H as ([inst | err] & s7 & _ & H);
    [| discriminate].
  destruct (ec2.Instances inst) as [| instance others]; [discriminate |].
  destruct (afterLaunch_done instance _ _ H) as (Hip & Hhyphen & Hlast).
  rewrite Hname in Hhyphen. auto.
Qed.

End Success.

(** ** The further properties on the sample worlds *)

Section MoreRuns.

Import Sample Cases.

Lemma occurs_IndexByte c s : occurs c s -> 0 <= strings.IndexByte s c.
Proof.
  intros (pre & rest & ->). induction pre as [| a pre IH].
  - rewrite append_nil. simpl. rewrite Ascii.eqb_refl. lia.
  - rewrite append_cons. simpl. destruct (Ascii.eqb a c); [lia |].
    destruct (strings.IndexByte (pre +:+ String c rest) c <? 0) eqn:H; [| lia].
    apply Z.ltb_lt in H. lia.
Qed.

Lemma absent c s : strings.IndexByte s c = -1 -> ~ occurs c s.
Proof. intros H Hocc. apply occurs_IndexByte in Hocc. lia. Qed.

Lemma configureTags_user_pairs_witness :
  let st := start (created fresh) in
  MachineName (driver st) = "node" +:+ String "-" "1" /\
  ~ occurs "-" "node" /\
  Forall commaFree (tokensOf [("k1", "v1")] ++ ["k2"]) /\
  (length ["k2"] <= 1)%nat /\
  configureTags calm "k1,v1,k2" st =
  (Ret None,
   sent st (CreateTagsInput ["i-0a1b2c3d"]
              (fixedTags (created fresh) "node" ++ [toTag ("k1", "v1")])) tt).
Proof.
  intros st.
  assert (~ occurs "-" "node") as Hpre by (apply absent; reflexivity).
  assert (Forall commaFree (tokensOf [("k1", "v1")] ++ ["k2"])) as Hfree
    by (repeat constructor; apply absent; reflexivity).
  assert (length ["k2"] <= 1)%nat as Hlen by (simpl; lia).
  split; [reflexivity |]. split; [exact Hpre |]. split; [exact Hfree |].
  split; [exact Hlen |].
  exact (configureTags_user_pairs calm st "node" "1" [("k1", "v1")] ["k2"]
           eq_refl Hpre Hfree Hlen (inl tt) tt eq_refl).
Defined.

Lemma waitForInstance_exhausts_budget_witness :
  let st := start (created fresh) in
  (forall w, notRunning (fst (DescribeInstances unreachable
                                [InstanceId (driver st)] w))) /\
  exists w,
    waitForInstance unreachable st =
    (Ret (Some (errorString "Maximum number of retries (60) exceeded")),
     {| driver := created fresh; world := w;
        requests := repeat (DescribeInstancesInput ["i-0a1b2c3d"]) 60 |}).
Proof.
  intros st.
  assert (forall w, notRunning (fst (DescribeInstances unreachable
                                       [InstanceId (driver st)] w))) as Hnever
    by (intros w; exact I).
  split; [exact Hnever |].
  exact (waitForInstance_exhausts_budget unreachable st Hnever).
Defined.

Lemma address_recorded_after_wait_witness :
  let st := start (created fresh) in
  let st' := snd (WaitFor calm (instanceIpAvailable calm) st) in
  WaitFor calm (instanceIpAvailable calm) st = (Ret None, st') /\
  IPAddress (driver st') <> "".
Proof.
  intros st st'.
  assert (WaitFor calm (instanceIpAvailable calm) st = (Ret None, st')) as Hwait
    by (vm_compute; reflexivity).
  split; [exact Hwait |].
  exact (address_recorded_after_wait calm st st' Hwait).
Defined.

Lemma createKeyPair_existing_key_witness :
  let st := start ownKeyHost in
  SSHPrivateKeyPath (driver st) <> "" /\ KeyName (driver st) <> "" /\
  CopyFile calm (SSHPrivateKeyPath (driver st)) (GetSSHKeyPath calm (driver st))
           (world st) = (None, tt) /\
  createKeyPair calm st = (Ret None, withWorld st tt).
Proof.
  intros st.
  assert (SSHPrivateKeyPath (driver st) <> "") as H1 by discriminate.
  assert (KeyName (driver st) <> "") as H2 by discriminate.
  split; [exact H1 |]. split; [exact H2 |]. split; [reflexivity |].
  exact (createKeyPair_existing_key calm st tt H1 H2 eq_refl).
Defined.

Lemma Create_key_failure_needs_no_cleanup_witness :
  let st := start fresh in
  let e := errorString "InvalidKeyPair.Duplicate: The keypair already exists" in
  let st1 := snd (createKeyPair keyless st) in
  InstanceId (driver st) = "" /\ KeyName (driver st) = "" /\
  createKeyPair keyless st = (Ret (Some e), st1) /\
  Create keyless st =
  (Ret (Some (errorString
     "unable to create key pair: InvalidKeyPair.Duplicate: The keypair already exists")),
   st1).
Proof.
  intros st e st1.
  assert (createKeyPair keyless st = (Ret (Some e), st1)) as Hkey
    by (vm_compute; reflexivity).
  split; [reflexivity |]. split; [reflexivity |]. split; [exact Hkey |].
  exact (Create_key_failure_needs_no_cleanup keyless st st1 e eq_refl eq_refl Hkey).
Defined.

Lemma deleteKeyPair_follows_instance_witness :
  let st := start (set_KeyName "node-1-other" (created fresh)) in
  KeyName (driver st) <> "" /\
  deleteKeyPair unreachable st =
    (Ret (Some (errorString "RequestError: send request failed")),
     sent st (DescribeInstancesInput ["i-0a1b2c3d"]) tt) /\
  deleteKeyPair calm st =
    (Ret None,
     sent (sent st (DescribeInstancesInput ["i-0a1b2c3d"]) tt)
          (DeleteKeyPairInput (Some "node-1-JJJJJ")) tt).
Proof.
  intros st.
  assert (KeyName (driver st) <> "") as Hkey by discriminate.
  split; [exact Hkey |]. split.
  - exact (proj1 (deleteKeyPair_follows_instance unreachable st Hkey)
             _ tt eq_refl).
  - exact (proj2 (deleteKeyPair_follows_instance calm st Hkey)
             _ [] instance [] tt (inl tt) tt eq_refl eq_refl eq_refl).
Defined.

Lemma afterLaunch_ignores_wait_witness :
  let st := start (set_KeyName "node-1-JJJJJ" fresh) in
  let st0 := withDriver st (set_InstanceId (ec2.InstanceId instance) (driver st)) in
  let st1 := snd (waitForInstance stalled st0) in
  waitForInstance stalled st0 =
    (Ret (Some (errorString "Maximum number of retries (60) exceeded")), st1) /\
  AllocateAddress stalled "vpc" (world st1) =
    (inr (errorString "AddressLimitExceeded: Too many addresses allocated"), tt) /\
  afterLaunch stalled instance st =
  (Ret (Some (errorString
     "Error allocating external IP: AddressLimitExceeded: Too many addresses allocated")),
   sent st1 (AllocateAddressInput "vpc") tt).
Proof.
  intros st st0 st1.
  assert (waitForInstance stalled st0 =
          (Ret (Some (errorString "Maximum number of retries (60) exceeded")), st1))
    as Hwait by (vm_compute; reflexivity).
  split; [exact Hwait |]. split; [reflexivity |].
  exact (afterLaunch_ignores_wait stalled st st1 instance _ _ tt Hwait eq_refl).
Defined.

Lemma existing_groups_are_not_created_witness :
  let st := start webHost in
  DescribeSecurityGroups provisioned (groupFilters ["web"] (VpcId (driver st))) []
    (world st) = (inl [webGroup webRules], tt) /\
  (forall name, In name ["web"] ->
                In name (map ec2.GroupName [webGroup webRules])) /\
  Forall (fun rq => isCreateGroup rq = false)
         (drop (length (requests st))
               (requests (snd (configureSecurityGroups provisioned ["web"] st)))).
Proof.
  intros st.
  assert (forall name, In name ["web"] ->
                       In name (map ec2.GroupName [webGroup webRules])) as Hall.
  { intros name [<- | []]. left. reflexivity. }
  split; [reflexivity |]. split; [exact Hall |].
  exact (existing_groups_are_not_created provisioned ["web"] st
           [webGroup webRules] tt eq_refl Hall).
Defined.

Lemma created_group_is_tagged_witness :
  let st := start fresh in
  let group :=
    {| ec2.GroupId := "sg-0001"; ec2.GroupName := "rancher-nodes";
       ec2.VpcId := "vpc-1"; ec2.IpPermissions := [];
       ec2.Tags := [managedTag provisioned] |} in
  let st' := snd (createGroup provisioned "rancher-nodes" st) in
  createGroup provisioned "rancher-nodes" st = (Ret (inl group), st') /\
  ec2.Tags group = [managedTag provisioned] /\
  hasTagKey (ec2.Tags group) machineSecurityGroupName = true.
Proof.
  intros st group st'.
  assert (createGroup provisioned "rancher-nodes" st = (Ret (inl group), st'))
    as Hrun by (vm_compute; reflexivity).
  split; [exact Hrun |].
  exact (created_group_is_tagged provisioned "rancher-nodes" st st' group Hrun).
Defined.

Lemma other_groups_get_basic_rules_witness :
  (ec2.GroupName (webGroup []) <> defaultSecurityGroup \/
   hasTagKey (ec2.Tags (webGroup [])) machineSecurityGroupName = false) /\
  configureSecurityGroupPermissions calm webHost (webGroup []) = inl webRules /\
  Forall (fun p =>
            p = openToAll "tcp" 22 22 \/
            p = openToAll "tcp" dockerPort dockerPort \/
            exists raw portNum,
              In raw (OpenPorts webHost) /\
              strconv.ParseInt (fst (driverutil.SplitPortProto raw))
                = inl portNum /\
              p = openToAll (snd (driverutil.SplitPortProto raw)) portNum portNum)
         webRules.
Proof.
  assert (ec2.GroupName (webGroup []) <> defaultSecurityGroup \/
          hasTagKey (ec2.Tags (webGroup [])) machineSecurityGroupName = false)
    as Hother by (right; reflexivity).
  assert (configureSecurityGroupPermissions calm webHost (webGroup [])
          = inl webRules) as Hrules by (vm_compute; reflexivity).
  split; [exact Hother |]. split; [exact Hrules |].
  exact (other_groups_get_basic_rules calm webHost (webGroup []) webRules
           Hother Hrules).
Defined.

Lemma checkSubnet_choice_witness :
  let st := start (set_SubnetId "" fresh) in
  SubnetId (driver st) = "" /\
  DescribeSubnets checks
    [ {| ec2.Name := "availability-zone";
         ec2.Values := [getRegionZone (driver st)] |};
      {| ec2.Name := "vpc-id"; ec2.Values := [VpcId (driver st)] |} ]
    (world st) = (inl [subnetA; subnetB], tt) /\
  checkSubnet checks st =
    (Ret None, withDriver (withWorld st tt) (set_SubnetId "subnet-b" (driver st))).
Proof.
  intros st. split; [reflexivity |]. split; [reflexivity |].
  refine (proj2 (checkSubnet_choice checks st [subnetA; subnetB] tt
                   eq_refl eq_refl) _ [subnetA] subnetB [] eq_refl _ eq_refl).
  - discriminate.
  - constructor; [discriminate | constructor].
Defined.

Lemma root_override_follows_image_witness :
  let st := start (set_DeviceName "" fresh) in
  DeviceName (driver st) = "" /\
  DescribeImages checks [AMI (driver st)] (world st) = (inl [image], tt) /\
  exists st1 out st2,
    checkAMI checks st = (Ret None, st1) /\
    updateBDMList st1 = (Ret out, st2) /\
    DeviceName (driver st1) = ec2pre.RootDeviceName image /\
    RootSize (driver st1) = RootSize (driver st) /\
    VolumeType (driver st1) = VolumeType (driver st) /\
    Forall2 (overridden (driver st1))
            (List.filter hasEbs (ec2pre.BlockDeviceMappings image)) out.
Proof.
  intros st. split; [reflexivity |]. split; [reflexivity |].
  exact (root_override_follows_image checks st image [] tt eq_refl eq_refl).
Defined.

Lemma getDefaultVPCId_first_attribute_witness :
  let st := start fresh in
  DescribeAccountAttributes checks (world st) = (inl attributes, tt) /\
  getDefaultVPCId checks st = (Ret ("vpc-9", None), withWorld st tt).
Proof.
  intros st. split; [reflexivity |].
  refine (proj2 (getDefaultVPCId_first_attribute checks st attributes tt eq_refl)
            [ {| ec2pre.AttributeName := "max-instances";
                 ec2pre.AttributeValues := ["20"] |} ]
            {| ec2pre.AttributeName := "default-vpc";
               ec2pre.AttributeValues := ["vpc-9"] |} [] eq_refl _ eq_refl).
  constructor; [discriminate | constructor].
Defined.

Lemma GetURL_needs_running_instance_witness :
  let st := start (created fresh) in
  let st1 := sent st (DescribeInstancesInput ["i-0a1b2c3d"]) tt in
  let st2 := sent st1 (DescribeInstancesInput ["i-0a1b2c3d"]) tt in
  DescribeInstances calm [InstanceId (driver st)] (world st)
    = (inl reservations, tt) /\
  ec2.StateName instance = ec2.InstanceStateNameRunning /\
  GetIP calm st1 = (Ret ("171.33.80.5", None), st2) /\
  ~ occurs ":" "171.33.80.5" /\
  GetURL calm st = (Ret ("tcp://171.33.80.5:2376", None), st2).
Proof.
  intros st st1 st2.
  assert (~ occurs ":" "171.33.80.5") as Hcolon by (apply absent; reflexivity).
  split; [reflexivity |]. split; [reflexivity |]. split; [reflexivity |].
  split; [exact Hcolon |].
  refine (proj2 (GetURL_needs_running_instance calm st
                   {| ec2.Instances := [instance] |} [] instance [] tt
                   eq_refl eq_refl)
            eq_refl "171.33.80.5" st2 eq_refl _ Hcolon).
  discriminate.
Defined.

Lemma innerCreate_success_means_tagged_witness :
  let st := start fresh in
  let st' := snd (innerCreate calm st) in
  innerCreate calm st = (Ret None, st') /\
  IPAddress (driver st') <> "" /\
  occurs "-" (MachineName (driver st)) /\
  exists before tags,
    requests st' = before ++ [CreateTagsInput [InstanceId (driver st')] tags].
Proof.
  intros st st'.
  assert (innerCreate calm st = (Ret None, st')) as Hrun
    by (vm_compute; reflexivity).
  split; [exact Hrun |].
  exact (innerCreate_success_means_tagged calm st st' Hrun).
Defined.

Lemma missing_rules_not_recorded_witness :
  Forall canonicalPort (OpenPorts plainPortHost) /\
  configureSecurityGroupPermissions calm plainPortHost
    (webGroup [openToAll "tcp" 22 22])
    = inl [openToAll "tcp" 2376 2376; openToAll "tcp" 8080 8080] /\
  Forall (fun p => ~ recorded [openToAll "tcp" 22 22] p)
         [openToAll "tcp" 2376 2376; openToAll "tcp" 8080 8080].
Proof.
  assert (Forall canonicalPort (OpenPorts plainPortHost)) as Hcan.
  { constructor; [| constructor]. exists 8080. split; reflexivity. }
  assert (configureSecurityGroupPermissions calm plainPortHost
            (webGroup [openToAll "tcp" 22 22])
          = inl [openToAll "tcp" 2376 2376; openToAll "tcp" 8080 8080]) as Hrules
    by (vm_compute; reflexivity).
  split; [exact Hcan |]. split; [exact Hrules |].
  exact (missing_rules_not_recorded calm plainPortHost
           (webGroup [openToAll "tcp" 22 22]) _ Hcan Hrules).
Defined.

Lemma reconciliation_idempotent_for_canonical_ports_witness :
  let st := start plainPortHost in
  Forall canonicalPort (OpenPorts (driver st)) /\
  webGroups !! "web" = Some (webGroup webRules) /\
  configureSecurityGroupPermissions calm (driver st)
    (withPermissions (webGroup webRules) []) = inl webRules /\
  Forall (recorded (ec2.IpPermissions (webGroup webRules))) webRules /\
  configureSecurityGroup calm webGroups "web" st =
  (Ret None,
   {| driver := set_SecurityGroupIds ["sg-0001"] plainPortHost;
      world := tt; requests := [] |}).
Proof.
  intros st.
  assert (Forall canonicalPort (OpenPorts (driver st))) as Hcan.
  { constructor; [| constructor]. exists 8080. split; reflexivity. }
  assert (webGroups !! "web" = Some (webGroup webRules)) as Hfound
    by (vm_compute; reflexivity).
  assert (configureSecurityGroupPermissions calm (driver st)
            (withPermissions (webGroup webRules) []) = inl webRules) as Hdesired
    by (vm_compute; reflexivity).
  assert (Forall (recorded (ec2.IpPermissions (webGroup webRules))) webRules)
    as Hall.
  { repeat (constructor;
            [eexists; split; [reflexivity | vm_compute; reflexivity] |]).
    constructor. }
  split; [exact Hcan |]. split; [exact Hfound |]. split; [exact Hdesired |].
  split; [exact Hall |].
  exact (reconciliation_idempotent_for_canonical_ports calm st webGroups "web"
           (webGroup webRules) webRules Hcan Hfound Hdesired Hall).
Defined.

Lemma configureTags_no_separator_panics_witness :
  ~ occurs "-" (MachineName plainHost) /\
  configureTags calm "k1,v1" (start plainHost)
    = (Panic "slice bounds out of range", start plainHost).
Proof.
  assert (~ occurs "-" (MachineName plainHost)) as Hno
    by (apply absent; reflexivity).
  split; [exact Hno |].
  exact (configureTags_no_separator_panics calm "k1,v1" (start plainHost) Hno).
Defined.

End MoreRuns.
